(** * HomeKit bridge: aid allocation, debounced setters, lock and thermostat adapters

    A shallow embedding of the parts of the HomeKit bridge that decide how
    accessory ids are allocated ([aidmanager.py]), how controller writes are
    debounced ([accessories.py]) and how the lock and thermostat adapters
    translate between hub states and characteristics ([type_locks.py],
    [type_thermostats.py]).

    Python objects are records, [self] is passed and returned explicitly,
    dictionaries used as maps are [gmap]s, sets are [gset]s, dictionary
    literals whose order matters are association lists, and a raised
    exception is a value of [result]. Of the logging, only the warning of
    the allocator is kept; debug records are left out. *)

From Stdlib Require Import ZArith QArith Qround String Ascii List.
From stdpp Require Import gmap strings list fin_maps.

Open Scope Z_scope.

(** ** Python values shared by all modules *)

Module Py.

Inductive exn :=
| ValueError (msg : string)
| KeyError (key : option string)
| TypeError (msg : string)
| AttributeError (msg : string).

Inductive result (A : Type) :=
| Return (a : A)
| Raise (e : exn).
Arguments Return {A} a.
Arguments Raise {A} e.

(** [str.encode("utf-8")]: a string is held as its UTF-8 bytes. *)
Definition encode (s : string) : list Byte.byte := String.list_byte_of_string s.

Definition byte_val (b : Byte.byte) : Z := Z.of_N (Byte.to_N b).

(** A dictionary literal, in insertion order. *)
Definition dict (K V : Type) := list (K * V).

(** [d.get(k)]: the value of the last binding of [k], as later bindings of
    a literal or comprehension overwrite earlier ones. *)
Fixpoint dict_get {K V} `{EqDecision K} (k : K) (d : dict K V) : option V :=
  match d with
  | [] => None
  | (k', v) :: rest =>
      match dict_get k rest with
      | Some v' => Some v'
      | None => if decide (k' = k) then Some v else None
      end
  end.

(** [{c: s for s, c in d.items()}] *)
Definition dict_invert {K V} (d : dict K V) : dict V K :=
  map (fun kv => (snd kv, fst kv)) d.

End Py.
Import Py.

(** ** aidmanager.py *)

Module AidManager.

Definition AID_MANAGER_SAVE_DELAY : Z := 2.

Definition INVALID_AIDS : list Z := [0; 1].

Definition AID_MIN : Z := 2.
Definition AID_MAX : Z := 18446744073709551615.

(** [zlib.adler32]: two sums modulo 65521, packed as [b << 16 | a]. *)
Fixpoint adler32_loop (a b : Z) (data : list Byte.byte) : Z :=
  match data with
  | [] => Z.lor (Z.shiftl b 16) a
  | x :: rest =>
      let a' := (a + byte_val x) mod 65521 in
      let b' := (b + a') mod 65521 in
      adler32_loop a' b' rest
  end.

Definition adler32 (data : list Byte.byte) : Z := adler32_loop 1 0 data.

(** [fnvhash.fnv1a_32]: xor the byte in, multiply by the 32-bit FNV prime,
    keep 32 bits. *)
Definition fnv1a_32 (data : list Byte.byte) : Z :=
  fold_left (fun hval x => (Z.lxor hval (byte_val x) * 16777619) mod 2 ^ 32)
            data 2166136261.

(** [random.randrange(start, stop)] is [start + randbelow(stop - start)]:
    [r] is the generator's raw output, reduced into [0, stop - start). *)
Definition randrange (start stop : Z) (r : Z) : Z :=
  start + r mod (stop - start).

Record RegistryEntry := {
  entity_id : string;
  platform : string;
  domain : string;
  unique_id : string;
}.

Definition get_system_unique_id (entity : RegistryEntry) : string :=
  platform entity +:+ "." +:+ domain entity +:+ "." +:+ unique_id entity.

(** The candidates the generator yields, in order; [rnd i] is the raw
    output behind the [i]-th call of [random.randrange]. *)
Definition _generate_aids (rnd : nat → Z) (unique_id entity_id : string) : list Z :=
  adler32 (encode entity_id)
    :: fnv1a_32 (encode unique_id)
    :: map (fun i => randrange AID_MIN AID_MAX (rnd i)) (seq 0 5).

(** The storage helper of the host: what is on disk under the storage key
    (the ["unique_ids"] member, [None] when nothing was ever written) and
    the delay of a save that is scheduled but has not been written yet. *)
Record Store := {
  on_disk : option (gmap string Z);
  delay_save : option Z;
}.

Definition async_delay_save (delay : Z) (s : Store) : Store :=
  {| on_disk := on_disk s; delay_save := Some delay |}.

Record AccessoryAidStorage := {
  store : Store;
  allocations : gmap string Z;
  allocated_aids : gset Z;
  _entity_registry : gmap string RegistryEntry;
}.

Definition __init__ (s : Store) : AccessoryAidStorage :=
  {| store := s; allocations := ∅; allocated_aids := ∅; _entity_registry := ∅ |}.

Definition async_initialize (registry : gmap string RegistryEntry)
    (self : AccessoryAidStorage) : AccessoryAidStorage :=
  match on_disk (store self) with
  | None =>
      {| store := store self; allocations := allocations self;
         allocated_aids := allocated_aids self; _entity_registry := registry |}
  | Some unique_ids =>
      {| store := store self; allocations := unique_ids;
         allocated_aids := map_img unique_ids; _entity_registry := registry |}
  end.

Definition _data_to_save (self : AccessoryAidStorage) : gmap string Z :=
  allocations self.

Definition async_schedule_save (self : AccessoryAidStorage) : AccessoryAidStorage :=
  {| store := async_delay_save AID_MANAGER_SAVE_DELAY (store self);
     allocations := allocations self;
     allocated_aids := allocated_aids self;
     _entity_registry := _entity_registry self |}.

(** The delay of a scheduled save has elapsed: the store calls the data
    function it was given and writes what it returns. *)
Definition delayed_write (self : AccessoryAidStorage) : AccessoryAidStorage :=
  match delay_save (store self) with
  | None => self
  | Some _ =>
      {| store := {| on_disk := Some (_data_to_save self); delay_save := None |};
         allocations := allocations self;
         allocated_aids := allocated_aids self;
         _entity_registry := _entity_registry self |}
  end.

Definition allocation_error (unique_id entity_id : string) : exn :=
  ValueError ("Unable to generate unique aid allocation for "
                +:+ entity_id +:+ " [" +:+ unique_id +:+ "]").

(** The [for aid in _generate_aids(...)] loop. *)
Fixpoint allocate_from (aids : list Z) (unique_id entity_id : string)
    (self : AccessoryAidStorage) : result Z * AccessoryAidStorage :=
  match aids with
  | [] => (Raise (allocation_error unique_id entity_id), self)
  | aid :: rest =>
      if bool_decide (aid ∈ INVALID_AIDS) then
        allocate_from rest unique_id entity_id self
      else if bool_decide (aid ∉ allocated_aids self) then
        (Return aid,
         async_schedule_save
           {| store := store self;
              allocations := <[unique_id := aid]> (allocations self);
              allocated_aids := {[aid]} ∪ allocated_aids self;
              _entity_registry := _entity_registry self |})
      else allocate_from rest unique_id entity_id self
  end.

Definition _get_or_allocate_aid (rnd : nat → Z) (unique_id entity_id : string)
    (self : AccessoryAidStorage) : result Z * AccessoryAidStorage :=
  match allocations self !! unique_id with
  | Some aid => (Return aid, self)
  | None => allocate_from (_generate_aids rnd unique_id entity_id) unique_id entity_id self
  end.

Definition unstable_warning (entity_id : string) : string :=
  "Entity '" +:+ entity_id +:+
  "' does not have a stable unique identifier so aid allocation will be unstable and may cause collisions".

(** The result, the warnings logged, and the storage afterwards. *)
Definition get_or_allocate_aid_for_entity_id (rnd : nat → Z) (entity_id : string)
    (self : AccessoryAidStorage) : result Z * list string * AccessoryAidStorage :=
  match _entity_registry self !! entity_id with
  | Some entity =>
      let '(r, self') :=
        _get_or_allocate_aid rnd (get_system_unique_id entity)
                             (AidManager.entity_id entity) self in
      (r, [], self')
  | None =>
      (Return (adler32 (encode entity_id)),
       [unstable_warning entity_id],
       self)
  end.

Definition delete_aid (unique_id : string) (self : AccessoryAidStorage)
    : AccessoryAidStorage :=
  match allocations self !! unique_id with
  | None => self
  | Some aid =>
      async_schedule_save
        {| store := store self;
           allocations := delete unique_id (allocations self);
           allocated_aids := allocated_aids self ∖ {[aid]};
           _entity_registry := _entity_registry self |}
  end.

(** A restart: a new storage object over the same store, then the load. *)
Definition restart (self : AccessoryAidStorage) : AccessoryAidStorage :=
  async_initialize (_entity_registry self) (__init__ (store self)).

(** The two properties of the allocation table. *)
Definition aids_distinct (self : AccessoryAidStorage) : Prop :=
  ∀ u1 u2 aid,
    allocations self !! u1 = Some aid → allocations self !! u2 = Some aid → u1 = u2.

Definition aids_derived (self : AccessoryAidStorage) : Prop :=
  allocated_aids self = map_img (allocations self).

(** A candidate the loop skips. *)
Definition rejected (self : AccessoryAidStorage) (aid : Z) : Prop :=
  aid ∈ INVALID_AIDS ∨ aid ∈ allocated_aids self.

(** The storage after [aid] was allocated to [unique_id]. *)
Definition allocated (unique_id : string) (aid : Z) (self : AccessoryAidStorage)
    : AccessoryAidStorage :=
  {| store := async_delay_save AID_MANAGER_SAVE_DELAY (store self);
     allocations := <[unique_id := aid]> (allocations self);
     allocated_aids := {[aid]} ∪ allocated_aids self;
     _entity_registry := _entity_registry self |}.

End AidManager.

(** ** accessories.py *)

Module Accessories.

(** Values that travel in service data, event data and debounce entries. *)
Inductive value :=
| VNone
| VStr (s : string)
| VInt (z : Z)
| VFloat (q : Q)
| VFormat (prefix : string) (q : Q) (suffix : string).
(** [VFormat] is an f-string of a literal, a float and a string, held
    unrendered. *)

(** Python truth of a value, as [if x:] tests it. *)
Definition truthy (v : value) : bool :=
  match v with
  | VNone => false
  | VStr s => negb (String.eqb s "")
  | VInt z => negb (z =? 0)
  | VFloat q => negb (Qeq_bool q 0)
  | VFormat _ _ _ => true
  end.

(* homeassistant.const *)
Definition ATTR_ENTITY_ID : string := "entity_id".
Definition ATTR_CODE : string := "code".

(** The data of the one event the bridge fires, keyed by
    [ATTR_ENTITY_ID], [ATTR_DISPLAY_NAME], [ATTR_SERVICE], [ATTR_VALUE]. *)
Record EventData := {
  event_entity_id : string;
  event_display_name : string;
  event_service : string;
  event_value : value;
}.

Inductive Event :=
| EVENT_HOMEKIT_CHANGED (event_data : EventData).

Record ServiceCall := {
  call_domain : string;
  call_name : string;
  call_data : gmap string value;
}.

(** A listener registered with [track_point_in_utc_time]: the handle its
    remove function stands for, the point in time, and the name of the
    decorated function whose [call_later_listener] it runs. *)
Record Listener := {
  listener_id : nat;
  point_in_time : Z;
  listener_func : string;
}.

(** What the adapter sees of the host: the clock, the point-in-time
    listeners, the event bus and the service calls dispatched. *)
Record HomeAssistant := {
  utcnow : Z;
  listeners : list Listener;
  next_listener : nat;
  bus : list Event;
  services : list ServiceCall;
}.

(** The fields [HomeAccessory.__init__] sets that the modelled methods
    use, and [fields] for what a subclass adds. *)
Record HomeAccessory (Fields : Type) := {
  entity_id : string;
  display_name : string;
  debounce : gmap string (nat * list value);
  fields : Fields;
}.
Arguments entity_id {Fields} _.
Arguments display_name {Fields} _.
Arguments debounce {Fields} _.
Arguments fields {Fields} _.

Definition with_debounce {Fields} (d : gmap string (nat * list value))
    (self : HomeAccessory Fields) : HomeAccessory Fields :=
  {| entity_id := entity_id self; display_name := display_name self;
     debounce := d; fields := fields self |}.

Definition with_fields {Fields} (f : Fields) (self : HomeAccessory Fields)
    : HomeAccessory Fields :=
  {| entity_id := entity_id self; display_name := display_name self;
     debounce := debounce self; fields := f |}.

(** A characteristic: its value and the values [set_value] was called
    with, oldest first. *)
Record Characteristic (V : Type) := {
  value_of : V;
  set_values : list V;
}.
Arguments value_of {V} _.
Arguments set_values {V} _.

Definition configure_char {V} (v : V) : Characteristic V :=
  {| value_of := v; set_values := [] |}.

Definition set_value {V} (v : V) (c : Characteristic V) : Characteristic V :=
  {| value_of := v; set_values := set_values c ++ [v] |}.

(** [async_call_service]: fire the event, then call the service. *)
Definition async_call_service {Fields} (domain service : string)
    (service_data : gmap string value) (v : value)
    (self : HomeAccessory Fields) (hass : HomeAssistant) : HomeAssistant :=
  let event_data :=
    {| event_entity_id := entity_id self;
       event_display_name := display_name self;
       event_service := service;
       event_value := v |} in
  {| utcnow := utcnow hass; listeners := listeners hass;
     next_listener := next_listener hass;
     bus := bus hass ++ [EVENT_HOMEKIT_CHANGED event_data];
     services := services hass
                   ++ [{| call_domain := domain; call_name := service;
                          call_data := service_data |}] |}.

(** [call_service] hands [async_call_service] to the host's job queue;
    jobs run in the order they were added. *)
Definition call_service {Fields} (domain service : string)
    (service_data : gmap string value) (v : value)
    (self : HomeAccessory Fields) (hass : HomeAssistant) : HomeAssistant :=
  async_call_service domain service service_data v self hass.

(** [track_point_in_utc_time]: register the listener, return its remove
    handle. *)
Definition track_point_in_utc_time (func : string) (point : Z)
    (hass : HomeAssistant) : nat * HomeAssistant :=
  (next_listener hass,
   {| utcnow := utcnow hass;
      listeners := listeners hass
                     ++ [{| listener_id := next_listener hass;
                            point_in_time := point;
                            listener_func := func |}];
      next_listener := S (next_listener hass);
      bus := bus hass; services := services hass |}).

(** Calling a remove handle. *)
Definition remove_listener (handle : nat) (hass : HomeAssistant) : HomeAssistant :=
  {| utcnow := utcnow hass;
     listeners := filter (fun l => listener_id l ≠ handle) (listeners hass);
     next_listener := next_listener hass;
     bus := bus hass; services := services hass |}.

Section debounce.
Context {Fields : Type}.

(** [DEBOUNCE_TIMEOUT] of const.py, in the unit of the clock. *)
Variable DEBOUNCE_TIMEOUT : Z.

Definition State : Type := HomeAccessory Fields * HomeAssistant.

(** A decorated function, run as an executor job: its outcome is not
    awaited, its effects stay. *)
Definition Method : Type :=
  list value → HomeAccessory Fields → HomeAssistant → result unit * State.

(** The methods of the class by [__name__]. *)
Variable methods : string → Method.

Definition async_add_executor_job (job : HomeAccessory Fields → HomeAssistant → result unit * State)
    (st : State) : State :=
  snd (job (fst st) (snd st)).

Definition call_later_listener (func : string) (st : State) : State :=
  let '(self, hass) := st in
  let debounce_params := debounce self !! func in
  let self := with_debounce (delete func (debounce self)) self in
  match debounce_params with
  | Some (_, args) => async_add_executor_job (methods func args) (self, hass)
  | None => (self, hass)
  end.

Definition wrapper (func : string) (args : list value) (st : State) : State :=
  let '(self, hass) := st in
  let debounce_params := debounce self !! func in
  let self := with_debounce (delete func (debounce self)) self in
  let hass :=
    match debounce_params with
    | Some (remove, _) => remove_listener remove hass
    | None => hass
    end in
  let '(remove, hass) :=
    track_point_in_utc_time func (utcnow hass + DEBOUNCE_TIMEOUT) hass in
  (with_debounce (<[func := (remove, args)]> (debounce self)) self, hass).

(** The listeners that are due run once each, oldest registration
    first. *)
Fixpoint fire (due : list Listener) (st : State) : State :=
  match due with
  | [] => st
  | l :: rest => fire rest (call_later_listener (listener_func l) st)
  end.

(** The clock advances by [dt]; listeners whose point in time is
    reached leave the host's table and run. *)
Definition time_passes (dt : Z) (st : State) : State :=
  let '(self, hass) := st in
  let now := utcnow hass + dt in
  let due := filter (fun l => point_in_time l ≤ now) (listeners hass) in
  let waiting := filter (fun l => ¬ point_in_time l ≤ now) (listeners hass) in
  fire due
       (self,
        {| utcnow := now; listeners := waiting;
           next_listener := next_listener hass;
           bus := bus hass; services := services hass |}).

(** A burst of controller writes to one decorated function: the first
    now, each later one [dt] after the one before it. *)
Fixpoint burst (func : string) (later : list (Z * list value)) (st : State) : State :=
  match later with
  | [] => st
  | (dt, args) :: rest => burst func rest (wrapper func args (time_passes dt st))
  end.

Definition writes (func : string) (first : list value)
    (later : list (Z * list value)) (st : State) : State :=
  burst func later (wrapper func first st).

(** The arguments of the last write of a burst. *)
Definition last_args (first : list value) (later : list (Z * list value)) : list value :=
  List.last (map snd later) first.

(** The state between a write and the firing of its listener, for an
    accessory [self0] and host [hass0] that were idle before the burst:
    one entry under [func] with the captured arguments, its listener
    the only one registered and due [DEBOUNCE_TIMEOUT] after the write,
    nothing fired on the bus and no service called since. *)
Definition armed (func : string) (args : list value)
    (self0 : HomeAccessory Fields) (hass0 : HomeAssistant) (st : State) : Prop :=
  ∃ handle,
    fst st = with_debounce {[func := (handle, args)]} self0
    ∧ listeners (snd st)
      = [{| listener_id := handle;
            point_in_time := utcnow (snd st) + DEBOUNCE_TIMEOUT;
            listener_func := func |}]
    ∧ bus (snd st) = bus hass0
    ∧ services (snd st) = services hass0.

(** The host when the listener fires: the burst has left only the
    clock and the handle counter changed. *)
Definition idle_since (hass0 hass : HomeAssistant) : Prop :=
  listeners hass = [] ∧ bus hass = bus hass0 ∧ services hass = services hass0.

End debounce.

End Accessories.

(** ** accessories.py: the executor jobs of the debounce decorator *)

Module DebounceJobs.
Import Accessories.

Section debounce.
Context {Fields : Type}.
Variable DEBOUNCE_TIMEOUT : Z.
Variable methods : string → Method (Fields := Fields).

(** One [self.hass.async_add_executor_job(func, self, *args)] of
    [call_later_listener]: the decorated function, the captured
    arguments, and the accessory and host the job runs on. *)
Record Job := {
  job_func : string;
  job_args : list value;
  job_self : HomeAccessory Fields;
  job_hass : HomeAssistant;
}.

(** The service calls a job adds to those the host had received. *)
Definition job_calls (j : Job) : list ServiceCall :=
  drop (length (services (job_hass j)))
       (services (snd (snd (methods (job_func j) (job_args j) (job_self j) (job_hass j))))).

(** The job [call_later_listener] submits, if any. *)
Definition call_later_listener_jobs (func : string) (st : State) : list Job :=
  let '(self, hass) := st in
  let debounce_params := debounce self !! func in
  let self := with_debounce (delete func (debounce self)) self in
  match debounce_params with
  | Some (_, args) =>
      [{| job_func := func; job_args := args; job_self := self; job_hass := hass |}]
  | None => []
  end.

(** The jobs submitted while [fire], [time_passes], [burst] and [writes]
    run, oldest first. *)
Fixpoint fire_jobs (due : list Listener) (st : State) : list Job :=
  match due with
  | [] => []
  | l :: rest =>
      call_later_listener_jobs (listener_func l) st
        ++ fire_jobs rest (call_later_listener methods (listener_func l) st)
  end.

Definition time_passes_jobs (dt : Z) (st : State) : list Job :=
  let '(self, hass) := st in
  let now := utcnow hass + dt in
  let due := filter (fun l => point_in_time l ≤ now) (listeners hass) in
  let waiting := filter (fun l => ¬ point_in_time l ≤ now) (listeners hass) in
  fire_jobs due
       (self,
        {| utcnow := now; listeners := waiting;
           next_listener := next_listener hass;
           bus := bus hass; services := services hass |}).

Fixpoint burst_jobs (func : string) (later : list (Z * list value)) (st : State)
    : list Job :=
  match later with
  | [] => []
  | (dt, args) :: rest =>
      time_passes_jobs dt st
        ++ burst_jobs func rest
             (wrapper DEBOUNCE_TIMEOUT func args (time_passes methods dt st))
  end.

Definition writes_jobs (func : string) (first : list value)
    (later : list (Z * list value)) (st : State) : list Job :=
  burst_jobs func later (wrapper DEBOUNCE_TIMEOUT func first st).

(** The jobs of one decorated function, and its listeners. *)
Definition jobs_of (func : string) (jobs : list Job) : list Job :=
  filter (fun j => job_func j = func) jobs.

Definition listeners_of (func : string) (hass : HomeAssistant) : list Listener :=
  filter (fun l => listener_func l = func) (listeners hass).

(** What the decorated functions have in common: a run leaves the
    debounce dictionary, the clock and the listeners of the host alone,
    and adds service calls to those there were. *)
Definition passive : Prop :=
  ∀ func args (self : HomeAccessory Fields) hass,
    let after := snd (methods func args self hass) in
    debounce (fst after) = debounce self
    ∧ utcnow (snd after) = utcnow hass
    ∧ listeners (snd after) = listeners hass
    ∧ next_listener (snd after) = next_listener hass
    ∧ ∃ calls, services (snd after) = services hass ++ calls.

(** A property of the accessory that no decorated function and no
    change of the debounce dictionary takes away. *)
Definition preserved (inv : HomeAccessory Fields → Prop) : Prop :=
  (∀ d self, inv self → inv (with_debounce d self))
  ∧ (∀ func args self hass, inv self → inv (fst (snd (methods func args self hass)))).

(** The states of an accessory and its host: the accessory is created
    with an empty debounce dictionary and no listener of its own; a
    controller writes to a decorated function; time passes; or something
    else happens that leaves the debounce dictionary and the listeners
    alone. *)
Inductive reachable : State (Fields := Fields) → Prop :=
| reachable_created (self : HomeAccessory Fields) hass :
    debounce self = ∅ → listeners hass = [] → reachable (self, hass)
| reachable_write func args st :
    reachable st → reachable (wrapper DEBOUNCE_TIMEOUT func args st)
| reachable_time dt st :
    reachable st → reachable (time_passes methods dt st)
| reachable_elsewhere (st st' : State (Fields := Fields)) :
    reachable st →
    debounce (fst st') = debounce (fst st) →
    listeners (snd st') = listeners (snd st) →
    next_listener (snd st') = next_listener (snd st) →
    reachable st'.

(** Debounce entries and listeners go in pairs: handles are distinct and
    below the next handle, every listener has the entry of its function
    with its handle, and every entry has its listener. *)
Definition paired (ls : list Listener) (d : gmap string (nat * list value))
    (next : nat) : Prop :=
  NoDup (listener_id <$> ls)
  ∧ Forall (fun l => (listener_id l < next)%nat) ls
  ∧ (∀ l, l ∈ ls → ∃ args, d !! listener_func l = Some (listener_id l, args))
  ∧ (∀ func handle args,
        d !! func = Some (handle, args) →
        ∃ l, l ∈ ls ∧ listener_id l = handle ∧ listener_func l = func).

Definition consistent (st : State (Fields := Fields)) : Prop :=
  paired (listeners (snd st)) (debounce (fst st)) (next_listener (snd st)).

(** A write to [func] is pending: the function has an entry with the
    captured arguments, and the listener the entry names is registered
    and due one delay after the write. *)
Definition pending_write (func : string) (args : list value)
    (st : State (Fields := Fields)) : Prop :=
  ∃ l, l ∈ listeners (snd st)
       ∧ listener_func l = func
       ∧ point_in_time l = utcnow (snd st) + DEBOUNCE_TIMEOUT
       ∧ debounce (fst st) !! func = Some (listener_id l, args).

(** What became of the write that was pending for a function: with
    [before] and [after] the entries of the function and [jobs] its jobs
    in between, a pending write is still pending or has run once, on its
    arguments; and where nothing was pending nothing is and nothing
    ran. *)
Definition outcome (before after : option (nat * list value)) (jobs : list Job)
    : Prop :=
  match before with
  | Some (handle, args) =>
      (after = Some (handle, args) ∧ jobs = [])
      ∨ (after = None ∧ ∃ j, jobs = [j] ∧ job_args j = args)
  | None => after = None ∧ jobs = []
  end.

End debounce.

End DebounceJobs.

(** ** type_locks.py *)

Module TypeLocks.
Import Accessories.

(* homeassistant.components.lock, homeassistant.const *)
Definition DOMAIN : string := "lock".
Definition STATE_LOCKED : string := "locked".
Definition STATE_UNLOCKED : string := "unlocked".
Definition STATE_UNKNOWN : string := "unknown".

Definition HASS_TO_HOMEKIT : dict string Z :=
  [(STATE_UNLOCKED, 0);
   (STATE_LOCKED, 1);
   (* Value 2 is Jammed which hass doesn't have a state for *)
   (STATE_UNKNOWN, 3)].

Definition HOMEKIT_TO_HASS : dict Z string := dict_invert HASS_TO_HOMEKIT.

Definition STATE_TO_SERVICE : dict string string :=
  [(STATE_LOCKED, "lock"); (STATE_UNLOCKED, "unlock")].

Record LockFields := {
  _code : value;
  _flag_state : bool;
  char_current_state : Characteristic Z;
  char_target_state : Characteristic Z;
}.

Definition Lock : Type := HomeAccessory LockFields.

Definition __init__ (name entity_id : string) (config : gmap string value) : Lock :=
  {| entity_id := entity_id;
     display_name := name;
     debounce := ∅;
     fields :=
       {| _code := default VNone (config !! ATTR_CODE);
          _flag_state := false;
          char_current_state :=
            configure_char (default 0 (dict_get STATE_UNKNOWN HASS_TO_HOMEKIT));
          char_target_state :=
            configure_char (default 0 (dict_get STATE_LOCKED HASS_TO_HOMEKIT)) |} |}.

Definition set_flag_state (b : bool) (f : LockFields) : LockFields :=
  {| _code := _code f; _flag_state := b;
     char_current_state := char_current_state f;
     char_target_state := char_target_state f |}.

Definition set_current_state (v : Z) (f : LockFields) : LockFields :=
  {| _code := _code f; _flag_state := _flag_state f;
     char_current_state := set_value v (char_current_state f);
     char_target_state := char_target_state f |}.

Definition set_target_state (v : Z) (f : LockFields) : LockFields :=
  {| _code := _code f; _flag_state := _flag_state f;
     char_current_state := char_current_state f;
     char_target_state := set_value v (char_target_state f) |}.

(** Set lock state to value if call came from HomeKit. *)
Definition set_state (v : Z) (self : Lock) (hass : HomeAssistant)
    : result unit * (Lock * HomeAssistant) :=
  let self := with_fields (set_flag_state true (fields self)) self in
  let hass_value := dict_get v HOMEKIT_TO_HASS in
  match hass_value ≫= (fun s => dict_get s STATE_TO_SERVICE) with
  | None => (Raise (KeyError hass_value), (self, hass))
  | Some service =>
      let params : gmap string value := {[ATTR_ENTITY_ID := VStr (entity_id self)]} in
      let params :=
        if truthy (_code (fields self))
        then <[ATTR_CODE := _code (fields self)]> params
        else params in
      (Return tt, (self, call_service DOMAIN service params VNone self hass))
  end.

(** Update lock after state changed; [hass_state] is [new_state.state]. *)
Definition update_state (hass_state : string) (self : Lock) : Lock :=
  match dict_get hass_state HASS_TO_HOMEKIT with
  | Some current_lock_state =>
      let self :=
        with_fields (set_current_state current_lock_state (fields self)) self in
      (* LockTargetState only supports locked and unlocked *)
      if bool_decide (hass_state ∈ [STATE_LOCKED; STATE_UNLOCKED]) then
        let self :=
          if negb (_flag_state (fields self))
          then with_fields (set_target_state current_lock_state (fields self)) self
          else self in
        with_fields (set_flag_state false (fields self)) self
      else self
  | None => self
  end.

End TypeLocks.

(** ** type_thermostats.py *)

Module TypeThermostats.
Import Accessories.

(* homeassistant.components.climate.const, homeassistant.components.water_heater *)
Definition DOMAIN_CLIMATE : string := "climate".
Definition DOMAIN_WATER_HEATER : string := "water_heater".
Definition SERVICE_SET_TEMPERATURE_THERMOSTAT : string := "set_temperature".
Definition SERVICE_SET_TEMPERATURE_WATER_HEATER : string := "set_temperature".
Definition ATTR_TARGET_TEMP_HIGH : string := "target_temp_high".
Definition ATTR_TARGET_TEMP_LOW : string := "target_temp_low".
Definition ATTR_TEMPERATURE : string := "temperature".
Definition SUPPORT_TARGET_TEMPERATURE_RANGE : Z := 2.

Record ThermostatFields := {
  _unit : string;
  _flag_heat_cool : bool;
  _flag_temperature : bool;
  _flag_coolingthresh : bool;
  _flag_heatingthresh : bool;
  char_target_temp : Characteristic Q;
  char_cooling_thresh_temp : option (Characteristic Q);
  char_heating_thresh_temp : option (Characteristic Q);
}.

Definition Thermostat : Type := HomeAccessory ThermostatFields.

(** The part of [Thermostat.__init__] that sets the fields above:
    [unit] is the host's temperature unit, [features] the entity's
    supported-features bits. *)
Definition __init__ (name entity_id unit : string) (features : Z) : Thermostat :=
  let range := negb (Z.land features SUPPORT_TARGET_TEMPERATURE_RANGE =? 0) in
  {| entity_id := entity_id;
     display_name := name;
     debounce := ∅;
     fields :=
       {| _unit := unit;
          _flag_heat_cool := false;
          _flag_temperature := false;
          _flag_coolingthresh := false;
          _flag_heatingthresh := false;
          char_target_temp := configure_char (21 # 1)%Q;
          char_cooling_thresh_temp :=
            if range then Some (configure_char (23 # 1)%Q) else None;
          char_heating_thresh_temp :=
            if range then Some (configure_char (19 # 1)%Q) else None |} |}.

Definition set_flag_temperature (b : bool) (f : ThermostatFields) : ThermostatFields :=
  {| _unit := _unit f; _flag_heat_cool := _flag_heat_cool f;
     _flag_temperature := b;
     _flag_coolingthresh := _flag_coolingthresh f;
     _flag_heatingthresh := _flag_heatingthresh f;
     char_target_temp := char_target_temp f;
     char_cooling_thresh_temp := char_cooling_thresh_temp f;
     char_heating_thresh_temp := char_heating_thresh_temp f |}.

Definition set_flag_coolingthresh (b : bool) (f : ThermostatFields) : ThermostatFields :=
  {| _unit := _unit f; _flag_heat_cool := _flag_heat_cool f;
     _flag_temperature := _flag_temperature f;
     _flag_coolingthresh := b;
     _flag_heatingthresh := _flag_heatingthresh f;
     char_target_temp := char_target_temp f;
     char_cooling_thresh_temp := char_cooling_thresh_temp f;
     char_heating_thresh_temp := char_heating_thresh_temp f |}.

Definition set_flag_heatingthresh (b : bool) (f : ThermostatFields) : ThermostatFields :=
  {| _unit := _unit f; _flag_heat_cool := _flag_heat_cool f;
     _flag_temperature := _flag_temperature f;
     _flag_coolingthresh := _flag_coolingthresh f;
     _flag_heatingthresh := b;
     char_target_temp := char_target_temp f;
     char_cooling_thresh_temp := char_cooling_thresh_temp f;
     char_heating_thresh_temp := char_heating_thresh_temp f |}.

Record WaterHeaterFields := {
  wh_unit : string;
  wh_flag_heat_cool : bool;
  wh_flag_temperature : bool;
  wh_char_target_temp : Characteristic Q;
}.

Definition WaterHeater : Type := HomeAccessory WaterHeaterFields.

Definition wh_set_flag_temperature (b : bool) (f : WaterHeaterFields) : WaterHeaterFields :=
  {| wh_unit := wh_unit f; wh_flag_heat_cool := wh_flag_heat_cool f;
     wh_flag_temperature := b; wh_char_target_temp := wh_char_target_temp f |}.

(** The service call that carries both bounds. *)
Definition threshold_call (entity_id : string) (high low : Q) : ServiceCall :=
  {| call_domain := DOMAIN_CLIMATE;
     call_name := SERVICE_SET_TEMPERATURE_THERMOSTAT;
     call_data :=
       <[ATTR_TARGET_TEMP_LOW := VFloat low]>
         (<[ATTR_TARGET_TEMP_HIGH := VFloat high]>
            {[ATTR_ENTITY_ID := VStr entity_id]}) |}.

(** The service call that carries the one target temperature. *)
Definition temperature_call (domain entity_id : string) (temperature : Q) : ServiceCall :=
  {| call_domain := domain;
     call_name := "set_temperature";
     call_data :=
       <[ATTR_TEMPERATURE := VFloat temperature]>
         {[ATTR_ENTITY_ID := VStr entity_id]} |}.

(** A setter called with the captured arguments of a write. *)
Definition with_value {Fields}
    (setter : Q → HomeAccessory Fields → HomeAssistant
              → result unit * (HomeAccessory Fields * HomeAssistant))
    (args : list value) (self : HomeAccessory Fields) (hass : HomeAssistant)
    : result unit * (HomeAccessory Fields * HomeAssistant) :=
  match args with
  | [VFloat v] => setter v self hass
  | [VInt z] => setter (inject_Z z) self hass
  | _ => (Raise (TypeError "set"), (self, hass))
  end.

Section setters.

(** [temperature_to_states] of util.py: a temperature in Celsius to the
    unit of the host. *)
Variable temperature_to_states : Q → string → Q.

(** Set cooling threshold temp to value if call came from HomeKit. *)
Definition set_cooling_threshold (v : Q) (self : Thermostat) (hass : HomeAssistant)
    : result unit * (Thermostat * HomeAssistant) :=
  let self := with_fields (set_flag_coolingthresh true (fields self)) self in
  match char_heating_thresh_temp (fields self) with
  | None => (Raise (AttributeError "value"), (self, hass))
  | Some heating =>
      let low := value_of heating in
      let temperature := temperature_to_states v (_unit (fields self)) in
      let params : gmap string value :=
        <[ATTR_TARGET_TEMP_LOW :=
            VFloat (temperature_to_states low (_unit (fields self)))]>
          (<[ATTR_TARGET_TEMP_HIGH := VFloat temperature]>
             {[ATTR_ENTITY_ID := VStr (entity_id self)]}) in
      (Return tt,
       (self,
        call_service DOMAIN_CLIMATE SERVICE_SET_TEMPERATURE_THERMOSTAT params
          (VFormat "cooling threshold " temperature (_unit (fields self)))
          self hass))
  end.

(** Set heating threshold temp to value if call came from HomeKit. *)
Definition set_heating_threshold (v : Q) (self : Thermostat) (hass : HomeAssistant)
    : result unit * (Thermostat * HomeAssistant) :=
  let self := with_fields (set_flag_heatingthresh true (fields self)) self in
  match char_cooling_thresh_temp (fields self) with
  | None => (Raise (AttributeError "value"), (self, hass))
  | Some cooling =>
      let high := value_of cooling in
      let temperature := temperature_to_states v (_unit (fields self)) in
      let params : gmap string value :=
        <[ATTR_TARGET_TEMP_LOW := VFloat temperature]>
          (<[ATTR_TARGET_TEMP_HIGH :=
               VFloat (temperature_to_states high (_unit (fields self)))]>
             {[ATTR_ENTITY_ID := VStr (entity_id self)]}) in
      (Return tt,
       (self,
        call_service DOMAIN_CLIMATE SERVICE_SET_TEMPERATURE_THERMOSTAT params
          (VFormat "heating threshold " temperature (_unit (fields self)))
          self hass))
  end.

(** Set target temperature to value if call came from HomeKit. *)
Definition set_target_temperature (v : Q) (self : Thermostat) (hass : HomeAssistant)
    : result unit * (Thermostat * HomeAssistant) :=
  let self := with_fields (set_flag_temperature true (fields self)) self in
  let temperature := temperature_to_states v (_unit (fields self)) in
  let params : gmap string value :=
    <[ATTR_TEMPERATURE := VFloat temperature]>
      {[ATTR_ENTITY_ID := VStr (entity_id self)]} in
  (Return tt,
   (self,
    call_service DOMAIN_CLIMATE SERVICE_SET_TEMPERATURE_THERMOSTAT params
      (VFormat "" temperature (_unit (fields self))) self hass)).

(** [WaterHeater.set_target_temperature] *)
Definition wh_set_target_temperature (v : Q) (self : WaterHeater) (hass : HomeAssistant)
    : result unit * (WaterHeater * HomeAssistant) :=
  let self := with_fields (wh_set_flag_temperature true (fields self)) self in
  let temperature := temperature_to_states v (wh_unit (fields self)) in
  let params : gmap string value :=
    <[ATTR_TEMPERATURE := VFloat temperature]>
      {[ATTR_ENTITY_ID := VStr (entity_id self)]} in
  (Return tt,
   (self,
    call_service DOMAIN_WATER_HEATER SERVICE_SET_TEMPERATURE_WATER_HEATER params
      (VFormat "" temperature (wh_unit (fields self))) self hass)).

(** The functions of [Thermostat] that carry [@debounce], by name. *)
Definition thermostat_methods (name : string) : Method (Fields := ThermostatFields) :=
  if decide (name = "set_cooling_threshold") then with_value set_cooling_threshold
  else if decide (name = "set_heating_threshold") then with_value set_heating_threshold
  else if decide (name = "set_target_temperature") then with_value set_target_temperature
  else fun _ self hass => (Raise (AttributeError name), (self, hass)).

(** The function of [WaterHeater] that carries [@debounce]. *)
Definition water_heater_methods (name : string) : Method (Fields := WaterHeaterFields) :=
  if decide (name = "set_target_temperature") then with_value wh_set_target_temperature
  else fun _ self hass => (Raise (AttributeError name), (self, hass)).

(** [DEBOUNCE_TIMEOUT] of const.py. *)
Variable DEBOUNCE_TIMEOUT : Z.

(** A controller write of [v] to a decorated function of the
    thermostat, then the debounce delay. *)
Definition write_and_wait (func : string) (v : Q) (st : Thermostat * HomeAssistant)
    : Thermostat * HomeAssistant :=
  time_passes thermostat_methods DEBOUNCE_TIMEOUT
    (wrapper DEBOUNCE_TIMEOUT func [VFloat v] st).

End setters.

(** What the setters of a thermostat read and never change: the entity
    id, the unit and the three temperature characteristics. *)
Definition same_thermostat (self0 self : Thermostat) : Prop :=
  entity_id self = entity_id self0
  ∧ _unit (fields self) = _unit (fields self0)
  ∧ char_target_temp (fields self) = char_target_temp (fields self0)
  ∧ char_cooling_thresh_temp (fields self) = char_cooling_thresh_temp (fields self0)
  ∧ char_heating_thresh_temp (fields self) = char_heating_thresh_temp (fields self0).

End TypeThermostats.

(** ** aidmanager.py and the entity registry of the host *)

Module AidManagerRegistry.
Import AidManager.

(** The registry is the host's object: the storage sees what it holds
    now. *)
Definition registry_now (registry : gmap string RegistryEntry)
    (self : AccessoryAidStorage) : AccessoryAidStorage :=
  {| store := store self; allocations := allocations self;
     allocated_aids := allocated_aids self; _entity_registry := registry |}.

(** No "." in a string. *)
Fixpoint dot_free (s : string) : Prop :=
  match s with
  | EmptyString => True
  | String c rest => c ≠ "."%char ∧ dot_free rest
  end.

End AidManagerRegistry.

(** ** The states of the host *)

Module Hass.
Import Accessories.

(** The value of a state attribute or of a configuration entry: a bool, a
    list of names, or one of the values above. *)
Inductive attribute :=
| ABool (b : bool)
| AList (l : list string)
| AValue (v : value).

(** Python truth of an attribute. *)
Definition attribute_truthy (a : attribute) : bool :=
  match a with
  | ABool b => b
  | AList l => negb (bool_decide (l = []))
  | AValue v => truthy v
  end.

(** [x == s] for a string [s], where [x] came out of [dict.get]. *)
Definition is_str (x : option attribute) (s : string) : bool :=
  match x with
  | Some (AValue (VStr s')) => String.eqb s' s
  | _ => false
  end.

(** [isinstance(x, (int, float))], with the number. *)
Definition as_number (x : option attribute) : option Q :=
  match x with
  | Some (ABool b) => Some (inject_Z (Z.b2z b))
  | Some (AValue (VInt z)) => Some (inject_Z z)
  | Some (AValue (VFloat q)) => Some q
  | _ => None
  end.

(** [homeassistant.core.State], as far as the bridge reads it. *)
Record State := {
  entity_id : string;
  domain : string;
  name : string;
  state : string;
  attributes : gmap string attribute;
}.

(* homeassistant.const *)
Definition ATTR_DEVICE_CLASS : string := "device_class".
Definition ATTR_SUPPORTED_FEATURES : string := "supported_features".
Definition ATTR_UNIT_OF_MEASUREMENT : string := "unit_of_measurement".
Definition ATTR_BATTERY_LEVEL : string := "battery_level".
Definition ATTR_BATTERY_CHARGING : string := "battery_charging".
Definition ATTR_TEMPERATURE : string := "temperature".
Definition CONF_NAME : string := "name".
Definition CONF_TYPE : string := "type".
Definition TEMP_CELSIUS : string := "°C".
Definition TEMP_FAHRENHEIT : string := "°F".
Definition STATE_OFF : string := "off".
Definition STATE_PLAYING : string := "playing".
Definition STATE_STANDBY : string := "standby".
Definition STATE_UNKNOWN : string := "unknown".

End Hass.

(** ** __init__.py *)

Module Bridge.
Import Accessories.

(* homeassistant.components.cover, homeassistant.components.media_player *)
Definition SUPPORT_OPEN : Z := 1.
Definition SUPPORT_CLOSE : Z := 2.
Definition SUPPORT_SET_POSITION : Z := 4.
Definition DEVICE_CLASS_TV : string := "tv".
Definition DEVICE_CLASS_HUMIDITY : string := "humidity".
Definition DEVICE_CLASS_ILLUMINANCE : string := "illuminance".
Definition DEVICE_CLASS_TEMPERATURE : string := "temperature".

(** Generate accessory aid with zlib adler32. *)
Definition generate_aid (entity_id : string) : option Z :=
  let aid := AidManager.adler32 (encode entity_id) in
  if bool_decide (aid ∈ [0; 1]) then None else Some aid.

(** [not aid] for an aid that may be [None]. *)
Definition aid_falsy (aid : option Z) : bool :=
  match aid with
  | None => true
  | Some z => z =? 0
  end.

(** [needle in hay] for strings. *)
Definition contains (hay needle : string) : bool :=
  match String.index 0 needle hay with
  | Some _ => true
  | None => false
  end.

(** The operand of [features & mask]: an int or a bool, else a
    TypeError. *)
Definition as_int (x : Hass.attribute) : result Z :=
  match x with
  | Hass.ABool b => Return (Z.b2z b)
  | Hass.AValue (VInt z) => Return z
  | _ => Raise (TypeError "unsupported operand type(s) for &")
  end.

Section get_accessory.

(** The switch types, device classes and configuration key of const.py. *)
Variables TYPE_FAUCET TYPE_OUTLET TYPE_SHOWER TYPE_SPRINKLER TYPE_SWITCH TYPE_VALVE : string.
Variables DEVICE_CLASS_CO DEVICE_CLASS_CO2 DEVICE_CLASS_PM25 : string.
Variable CONF_FEATURE_LIST : string.

(** [validate_media_player_features] of util.py. *)
Variable validate_media_player_features : Hass.State → Hass.attribute → bool.

Definition SWITCH_TYPES : dict string string :=
  [(TYPE_FAUCET, "Valve");
   (TYPE_OUTLET, "Outlet");
   (TYPE_SHOWER, "Valve");
   (TYPE_SPRINKLER, "Valve");
   (TYPE_SWITCH, "Switch");
   (TYPE_VALVE, "Valve")].

(** [SWITCH_TYPES[switch_type]] *)
Definition switch_a_type (switch_type : Hass.attribute) : result (option string) :=
  match switch_type with
  | Hass.AValue (VStr s) =>
      match dict_get s SWITCH_TYPES with
      | Some a_type => Return (Some a_type)
      | None => Raise (KeyError (Some s))
      end
  | Hass.AList _ => Raise (TypeError "unhashable type: 'list'")
  | _ => Raise (KeyError None)
  end.

Definition cover_a_type (state : Hass.State) : result (option string) :=
  let device_class := Hass.attributes state !! Hass.ATTR_DEVICE_CLASS in
  let features :=
    default (Hass.AValue (VInt 0)) (Hass.attributes state !! Hass.ATTR_SUPPORTED_FEATURES) in
  match as_int features with
  | Raise e => Raise e
  | Return features =>
      if Hass.is_str device_class "garage"
         && negb (Z.land features (Z.lor SUPPORT_OPEN SUPPORT_CLOSE) =? 0)
      then Return (Some "GarageDoorOpener")
      else if negb (Z.land features SUPPORT_SET_POSITION =? 0)
      then Return (Some "WindowCovering")
      else if negb (Z.land features (Z.lor SUPPORT_OPEN SUPPORT_CLOSE) =? 0)
      then Return (Some "WindowCoveringBasic")
      else Return None
  end.

Definition media_player_a_type (state : Hass.State)
    (config : gmap string Hass.attribute) : result (option string) :=
  let device_class := Hass.attributes state !! Hass.ATTR_DEVICE_CLASS in
  let feature_list := config !! CONF_FEATURE_LIST in
  if Hass.is_str device_class DEVICE_CLASS_TV then Return (Some "TelevisionMediaPlayer")
  else
    match feature_list with
    | Some features =>
        if Hass.attribute_truthy features
           && validate_media_player_features state features
        then Return (Some "MediaPlayer")
        else Return None
    | None => Return None
    end.

Definition sensor_a_type (state : Hass.State) : result (option string) :=
  let device_class := Hass.attributes state !! Hass.ATTR_DEVICE_CLASS in
  let unit := Hass.attributes state !! Hass.ATTR_UNIT_OF_MEASUREMENT in
  if Hass.is_str device_class DEVICE_CLASS_TEMPERATURE
     || Hass.is_str unit Hass.TEMP_CELSIUS || Hass.is_str unit Hass.TEMP_FAHRENHEIT
  then Return (Some "TemperatureSensor")
  else if Hass.is_str device_class DEVICE_CLASS_HUMIDITY && Hass.is_str unit "%"
  then Return (Some "HumiditySensor")
  else if Hass.is_str device_class DEVICE_CLASS_PM25
          || contains (Hass.entity_id state) DEVICE_CLASS_PM25
  then Return (Some "AirQualitySensor")
  else if Hass.is_str device_class DEVICE_CLASS_CO
  then Return (Some "CarbonMonoxideSensor")
  else if Hass.is_str device_class DEVICE_CLASS_CO2
          || contains (Hass.entity_id state) DEVICE_CLASS_CO2
  then Return (Some "CarbonDioxideSensor")
  else if Hass.is_str device_class DEVICE_CLASS_ILLUMINANCE
          || Hass.is_str unit "lm" || Hass.is_str unit "lx"
  then Return (Some "LightSensor")
  else Return None.

(** The chain of tests on [state.domain]. *)
Definition a_type_of (state : Hass.State) (config : gmap string Hass.attribute)
    : result (option string) :=
  let domain := Hass.domain state in
  if decide (domain = "alarm_control_panel") then Return (Some "SecuritySystem")
  else if bool_decide (domain ∈ ["binary_sensor"; "device_tracker"; "person"])
  then Return (Some "BinarySensor")
  else if decide (domain = "climate") then Return (Some "Thermostat")
  else if decide (domain = "cover") then cover_a_type state
  else if decide (domain = "fan") then Return (Some "Fan")
  else if decide (domain = "light") then Return (Some "Light")
  else if decide (domain = "lock") then Return (Some "Lock")
  else if decide (domain = "media_player") then media_player_a_type state config
  else if decide (domain = "sensor") then sensor_a_type state
  else if decide (domain = "switch")
  then switch_a_type (default (Hass.AValue (VStr TYPE_SWITCH)) (config !! Hass.CONF_TYPE))
  else if bool_decide
            (domain ∈ ["automation"; "input_boolean"; "remote"; "scene"; "script"])
  then Return (Some "Switch")
  else if decide (domain = "water_heater") then Return (Some "WaterHeater")
  else Return None.

(** Take state and return an accessory object if supported: the result is
    the name under which the accessory class is looked up in [TYPES] and
    the name the class is called with, or [None]. *)
Definition get_accessory (state : Hass.State) (aid : option Z)
    (config : gmap string Hass.attribute)
    : result (option (string * Hass.attribute)) :=
  if aid_falsy aid then Return None
  else
    let name :=
      default (Hass.AValue (VStr (Hass.name state))) (config !! Hass.CONF_NAME) in
    match a_type_of state config with
    | Raise e => Raise e
    | Return None => Return None
    | Return (Some a_type) => Return (Some (a_type, name))
    end.

End get_accessory.

(** The names under which the accessory classes are registered. *)
Definition accessory_types : list string :=
  ["SecuritySystem"; "BinarySensor"; "Thermostat"; "GarageDoorOpener";
   "WindowCovering"; "WindowCoveringBasic"; "Fan"; "Light"; "Lock";
   "TelevisionMediaPlayer"; "MediaPlayer"; "TemperatureSensor"; "HumiditySensor";
   "AirQualitySensor"; "CarbonMonoxideSensor"; "CarbonDioxideSensor";
   "LightSensor"; "Valve"; "Outlet"; "Switch"; "WaterHeater"].

(** The domains [get_accessory] has a rule for. *)
Definition supported_domains : list string :=
  ["alarm_control_panel"; "binary_sensor"; "device_tracker"; "person"; "climate";
   "cover"; "fan"; "light"; "lock"; "media_player"; "sensor"; "switch";
   "automation"; "input_boolean"; "remote"; "scene"; "script"; "water_heater"].

End Bridge.

(** ** type_thermostats.py: modes and state changes *)

Module TypeThermostatsState.
Import Accessories TypeThermostats.

(* homeassistant.components.climate.const *)
Definition ATTR_CURRENT_TEMPERATURE : string := "current_temperature".
Definition ATTR_HVAC_ACTION : string := "hvac_action".
Definition ATTR_HVAC_MODE : string := "hvac_mode".
Definition CURRENT_HVAC_COOL : string := "cooling".
Definition CURRENT_HVAC_HEAT : string := "heating".
Definition CURRENT_HVAC_IDLE : string := "idle".
Definition CURRENT_HVAC_OFF : string := "off".
Definition HVAC_MODE_AUTO : string := "auto".
Definition HVAC_MODE_COOL : string := "cool".
Definition HVAC_MODE_FAN_ONLY : string := "fan_only".
Definition HVAC_MODE_HEAT : string := "heat".
Definition HVAC_MODE_HEAT_COOL : string := "heat_cool".
Definition HVAC_MODE_OFF : string := "off".
Definition SERVICE_SET_HVAC_MODE_THERMOSTAT : string := "set_hvac_mode".

Definition UNIT_HASS_TO_HOMEKIT : dict string Z :=
  [(Hass.TEMP_CELSIUS, 0); (Hass.TEMP_FAHRENHEIT, 1)].

Definition UNIT_HOMEKIT_TO_HASS : dict Z string := dict_invert UNIT_HASS_TO_HOMEKIT.

Definition HC_HASS_TO_HOMEKIT : dict string Z :=
  [(HVAC_MODE_OFF, 0);
   (HVAC_MODE_HEAT, 1);
   (HVAC_MODE_COOL, 2);
   (HVAC_MODE_AUTO, 3);
   (HVAC_MODE_HEAT_COOL, 3);
   (HVAC_MODE_FAN_ONLY, 2)].

Definition HC_HOMEKIT_TO_HASS : dict Z string := dict_invert HC_HASS_TO_HOMEKIT.

Definition HC_HASS_TO_HOMEKIT_ACTION : dict string Z :=
  [(CURRENT_HVAC_OFF, 0);
   (CURRENT_HVAC_IDLE, 0);
   (CURRENT_HVAC_HEAT, 1);
   (CURRENT_HVAC_COOL, 2)].

(** The modes taken when the state has no [hvac_modes] yet. *)
Definition default_hc_modes : list string :=
  [HVAC_MODE_HEAT; HVAC_MODE_COOL; HVAC_MODE_HEAT_COOL; HVAC_MODE_OFF].

(** The condition of the comprehension in [__init__]: prefer AUTO over
    HEAT_COOL and COOL over FAN_ONLY. *)
Definition hc_mode_kept (hc_modes : list string) (s : string) : bool :=
  bool_decide (s ∈ hc_modes)
  && negb ((String.eqb s HVAC_MODE_HEAT_COOL && bool_decide (HVAC_MODE_AUTO ∈ hc_modes))
           || (String.eqb s HVAC_MODE_FAN_ONLY && bool_decide (HVAC_MODE_COOL ∈ hc_modes))).

(** [self.hc_homekit_to_hass] for the [hvac_modes] attribute of the state
    ([None] when the attribute is missing). *)
Definition hc_homekit_to_hass (hvac_modes : option (list string)) : dict Z string :=
  let hc_modes := default default_hc_modes hvac_modes in
  dict_invert (List.filter (fun sc => hc_mode_kept hc_modes (fst sc)) HC_HASS_TO_HOMEKIT).

(** The fields of the thermostat: those the setters above use, and the
    rest of what [__init__] sets and the methods here read. *)
Record ThermostatChars := {
  core : ThermostatFields;
  hc_homekit_to_hass_of : dict Z string;
  char_current_heat_cool : Characteristic Z;
  char_target_heat_cool : Characteristic Z;
  char_current_temp : Characteristic Q;
  char_display_units : Characteristic Z;
}.

Definition ThermostatObject : Type := HomeAccessory ThermostatChars.

(** [Thermostat.__init__] without the bounds of the temperature
    characteristics. *)
Definition __init__ (name entity_id unit : string) (features : Z)
    (hvac_modes : option (list string)) : ThermostatObject :=
  {| entity_id := entity_id;
     display_name := name;
     debounce := ∅;
     fields :=
       {| core := fields (TypeThermostats.__init__ name entity_id unit features);
          hc_homekit_to_hass_of := hc_homekit_to_hass hvac_modes;
          char_current_heat_cool := configure_char 0;
          char_target_heat_cool := configure_char 0;
          char_current_temp := configure_char (21 # 1)%Q;
          char_display_units := configure_char 0 |} |}.

Definition with_core (f : ThermostatFields → ThermostatFields) (c : ThermostatChars)
    : ThermostatChars :=
  {| core := f (core c);
     hc_homekit_to_hass_of := hc_homekit_to_hass_of c;
     char_current_heat_cool := char_current_heat_cool c;
     char_target_heat_cool := char_target_heat_cool c;
     char_current_temp := char_current_temp c;
     char_display_units := char_display_units c |}.

Definition set_flag_heat_cool (b : bool) (f : ThermostatFields) : ThermostatFields :=
  {| _unit := _unit f; _flag_heat_cool := b;
     _flag_temperature := _flag_temperature f;
     _flag_coolingthresh := _flag_coolingthresh f;
     _flag_heatingthresh := _flag_heatingthresh f;
     char_target_temp := char_target_temp f;
     char_cooling_thresh_temp := char_cooling_thresh_temp f;
     char_heating_thresh_temp := char_heating_thresh_temp f |}.

Definition set_target_temp (v : Q) (f : ThermostatFields) : ThermostatFields :=
  {| _unit := _unit f; _flag_heat_cool := _flag_heat_cool f;
     _flag_temperature := _flag_temperature f;
     _flag_coolingthresh := _flag_coolingthresh f;
     _flag_heatingthresh := _flag_heatingthresh f;
     char_target_temp := set_value v (char_target_temp f);
     char_cooling_thresh_temp := char_cooling_thresh_temp f;
     char_heating_thresh_temp := char_heating_thresh_temp f |}.

Definition set_cooling_thresh_temp (v : Q) (f : ThermostatFields) : ThermostatFields :=
  {| _unit := _unit f; _flag_heat_cool := _flag_heat_cool f;
     _flag_temperature := _flag_temperature f;
     _flag_coolingthresh := _flag_coolingthresh f;
     _flag_heatingthresh := _flag_heatingthresh f;
     char_target_temp := char_target_temp f;
     char_cooling_thresh_temp := set_value v <$> char_cooling_thresh_temp f;
     char_heating_thresh_temp := char_heating_thresh_temp f |}.

Definition set_heating_thresh_temp (v : Q) (f : ThermostatFields) : ThermostatFields :=
  {| _unit := _unit f; _flag_heat_cool := _flag_heat_cool f;
     _flag_temperature := _flag_temperature f;
     _flag_coolingthresh := _flag_coolingthresh f;
     _flag_heatingthresh := _flag_heatingthresh f;
     char_target_temp := char_target_temp f;
     char_cooling_thresh_temp := char_cooling_thresh_temp f;
     char_heating_thresh_temp := set_value v <$> char_heating_thresh_temp f |}.

Definition set_current_temp (v : Q) (c : ThermostatChars) : ThermostatChars :=
  {| core := core c;
     hc_homekit_to_hass_of := hc_homekit_to_hass_of c;
     char_current_heat_cool := char_current_heat_cool c;
     char_target_heat_cool := char_target_heat_cool c;
     char_current_temp := set_value v (char_current_temp c);
     char_display_units := char_display_units c |}.

Definition set_display_units (v : Z) (c : ThermostatChars) : ThermostatChars :=
  {| core := core c;
     hc_homekit_to_hass_of := hc_homekit_to_hass_of c;
     char_current_heat_cool := char_current_heat_cool c;
     char_target_heat_cool := char_target_heat_cool c;
     char_current_temp := char_current_temp c;
     char_display_units := set_value v (char_display_units c) |}.

Definition set_target_heat_cool (v : Z) (c : ThermostatChars) : ThermostatChars :=
  {| core := core c;
     hc_homekit_to_hass_of := hc_homekit_to_hass_of c;
     char_current_heat_cool := char_current_heat_cool c;
     char_target_heat_cool := set_value v (char_target_heat_cool c);
     char_current_temp := char_current_temp c;
     char_display_units := char_display_units c |}.

Definition set_current_heat_cool (v : Z) (c : ThermostatChars) : ThermostatChars :=
  {| core := core c;
     hc_homekit_to_hass_of := hc_homekit_to_hass_of c;
     char_current_heat_cool := set_value v (char_current_heat_cool c);
     char_target_heat_cool := char_target_heat_cool c;
     char_current_temp := char_current_temp c;
     char_display_units := char_display_units c |}.

(** Change operation mode to value if call came from HomeKit. *)
Definition set_heat_cool (v : Z) (self : ThermostatObject) (hass : HomeAssistant)
    : result unit * (ThermostatObject * HomeAssistant) :=
  let self := with_fields (with_core (set_flag_heat_cool true) (fields self)) self in
  match dict_get v (hc_homekit_to_hass_of (fields self)) with
  | None => (Raise (KeyError None), (self, hass))
  | Some hass_value =>
      let params : gmap string value :=
        <[ATTR_HVAC_MODE := VStr hass_value]>
          {[ATTR_ENTITY_ID := VStr (entity_id self)]} in
      (Return tt,
       (self,
        call_service DOMAIN_CLIMATE SERVICE_SET_HVAC_MODE_THERMOSTAT params
          (VStr hass_value) self hass))
  end.

Section update_state.

(** [temperature_to_homekit] of util.py: a temperature in the unit of the
    host to Celsius. *)
Variable temperature_to_homekit : Q → string → Q.

(** The part of [update_state] on the three temperatures the controller
    can write: each is written unless its flag is set, and each flag is
    cleared. *)
Definition update_temperatures (attributes : gmap string Hass.attribute)
    (f : ThermostatFields) : ThermostatFields :=
  (* Update target temperature *)
  let f :=
    match Hass.as_number (attributes !! Hass.ATTR_TEMPERATURE) with
    | Some target_temp =>
        if negb (_flag_temperature f)
        then set_target_temp (temperature_to_homekit target_temp (_unit f)) f
        else f
    | None => f
    end in
  let f := set_flag_temperature false f in
  (* Update cooling threshold temperature if characteristic exists *)
  let f :=
    match char_cooling_thresh_temp f with
    | Some _ =>
        match Hass.as_number (attributes !! ATTR_TARGET_TEMP_HIGH) with
        | Some cooling_thresh =>
            if negb (_flag_coolingthresh f)
            then set_cooling_thresh_temp
                   (temperature_to_homekit cooling_thresh (_unit f)) f
            else f
        | None => f
        end
    | None => f
    end in
  let f := set_flag_coolingthresh false f in
  (* Update heating threshold temperature if characteristic exists *)
  let f :=
    match char_heating_thresh_temp f with
    | Some _ =>
        match Hass.as_number (attributes !! ATTR_TARGET_TEMP_LOW) with
        | Some heating_thresh =>
            if negb (_flag_heatingthresh f)
            then set_heating_thresh_temp
                   (temperature_to_homekit heating_thresh (_unit f)) f
            else f
        | None => f
        end
    | None => f
    end in
  set_flag_heatingthresh false f.

(** [HC_HASS_TO_HOMEKIT_ACTION[hvac_action]] *)
Definition action_value (hvac_action : Hass.attribute) : result Z :=
  match hvac_action with
  | Hass.AValue (VStr s) =>
      match dict_get s HC_HASS_TO_HOMEKIT_ACTION with
      | Some v => Return v
      | None => Raise (KeyError (Some s))
      end
  | Hass.AList _ => Raise (TypeError "unhashable type: 'list'")
  | _ => Raise (KeyError None)
  end.

(** The first part of [update_state]: the current temperature, the three
    temperatures the controller can write, and the display units. *)
Definition update_before_mode (new_state : Hass.State) (self : ThermostatObject)
    : ThermostatObject :=
  let attributes := Hass.attributes new_state in
  let unit := _unit (core (fields self)) in
  (* Update current temperature *)
  let self :=
    match Hass.as_number (attributes !! ATTR_CURRENT_TEMPERATURE) with
    | Some current_temp =>
        with_fields
          (set_current_temp (temperature_to_homekit current_temp unit) (fields self))
          self
    | None => self
    end in
  let self :=
    with_fields (with_core (update_temperatures attributes) (fields self)) self in
  (* Update display units *)
  match dict_get unit UNIT_HASS_TO_HOMEKIT with
  | Some units =>
      if negb (String.eqb unit "")
      then with_fields (set_display_units units (fields self)) self
      else self
  | None => self
  end.

(** Update target operation mode. The target mode characteristic was
    configured with the keys of [self.hc_homekit_to_hass] as its valid
    values, and its [set_value] raises a ValueError for any other value. *)
Definition update_target_mode (hvac_mode : string) (self : ThermostatObject)
    : result ThermostatObject :=
  match dict_get hvac_mode HC_HASS_TO_HOMEKIT with
  | Some v =>
      if negb (String.eqb hvac_mode "") && negb (_flag_heat_cool (core (fields self)))
      then
        match dict_get v (hc_homekit_to_hass_of (fields self)) with
        | Some _ => Return (with_fields (set_target_heat_cool v (fields self)) self)
        | None => Raise (ValueError "TargetHeatingCoolingState: invalid value")
        end
      else Return self
  | None => Return self
  end.

(** Set current operation mode for supported thermostats. *)
Definition update_current_mode (attributes : gmap string Hass.attribute)
    (self : ThermostatObject) : result unit * ThermostatObject :=
  match attributes !! ATTR_HVAC_ACTION with
  | Some hvac_action =>
      if Hass.attribute_truthy hvac_action
      then
        match action_value hvac_action with
        | Return v =>
            (Return tt, with_fields (set_current_heat_cool v (fields self)) self)
        | Raise e => (Raise e, self)
        end
      else (Return tt, self)
  | None => (Return tt, self)
  end.

(** Update thermostat state after state changed. *)
Definition update_state (new_state : Hass.State) (self : ThermostatObject)
    : result unit * ThermostatObject :=
  let self := update_before_mode new_state self in
  match update_target_mode (Hass.state new_state) self with
  | Raise e => (Raise e, self)
  | Return self =>
      let self :=
        with_fields (with_core (set_flag_heat_cool false) (fields self)) self in
      update_current_mode (Hass.attributes new_state) self
  end.

End update_state.

End TypeThermostatsState.

(** ** Concrete tables and accessories used as instances *)

Module Examples.
Import AidManager.

Definition no_store : Store := {| on_disk := None; delay_save := None |}.

Definition demo_entry : RegistryEntry :=
  {| entity_id := "light.demo"; platform := "demo";
     domain := "light"; unique_id := "uid-1" |}.

(** A generator whose raw output is always 0: every random candidate is
    [AID_MIN]. *)
Definition rnd0 : nat → Z := fun _ => 0.

(** A table in which the two hashes of the demo light and [AID_MIN] are
    taken by other identities. *)
Definition crowded_with (registry : gmap string RegistryEntry) : AccessoryAidStorage :=
  let table : gmap string Z :=
    <["demo.switch.a" := adler32 (encode "light.demo")]>
      (<["demo.switch.b" := fnv1a_32 (encode "demo.light.uid-1")]>
         {["demo.switch.c" := AID_MIN]}) in
  {| store := {| on_disk := Some table; delay_save := None |};
     allocations := table;
     allocated_aids := map_img table;
     _entity_registry := registry |}.

Definition crowded : AccessoryAidStorage :=
  crowded_with {["light.demo" := demo_entry]}.

(** A table holding the demo light only, saved. *)
Definition single : AccessoryAidStorage :=
  let table : gmap string Z := {["demo.light.uid-1" := adler32 (encode "light.demo")]} in
  {| store := {| on_disk := Some table; delay_save := None |};
     allocations := table;
     allocated_aids := map_img table;
     _entity_registry := {["light.demo" := demo_entry]} |}.

End Examples.

Module AdapterExamples.
Import Accessories TypeLocks TypeThermostats.

Definition quiet_hass : HomeAssistant :=
  {| utcnow := 0; listeners := []; next_listener := 0; bus := [];
     services := [] |}.

Definition front_door : Lock :=
  TypeLocks.__init__ "Front Door" "lock.front_door" {[ATTR_CODE := VStr "1234"]}.

(** Modelled from the spec: [temperature_to_states] of util.py, which is
    not among the sources, for a host whose unit is Celsius: the value
    rounded to the nearest 0.5. *)
Definition to_states_celsius (temperature : Q) (unit : string) : Q :=
  Qred (inject_Z (Qfloor (temperature * 2 + (1 # 2))%Q) / 2)%Q.

(** A thermostat with a temperature range whose heating threshold
    stands at 18.0 and whose cooling threshold stands at 26.0. *)
Definition hallway : Thermostat :=
  let built := TypeThermostats.__init__ "Hallway" "climate.hallway" "°C" 2 in
  with_fields
    {| _unit := _unit (fields built);
       _flag_heat_cool := false; _flag_temperature := false;
       _flag_coolingthresh := false; _flag_heatingthresh := false;
       char_target_temp := char_target_temp (fields built);
       char_cooling_thresh_temp := Some (set_value (26 # 1)%Q (configure_char (23 # 1)%Q));
       char_heating_thresh_temp := Some (set_value (18 # 1)%Q (configure_char (19 # 1)%Q)) |}
    built.

End AdapterExamples.

Module MoreExamples.
Import Accessories.

Definition garage_door : Hass.State :=
  {| Hass.entity_id := "cover.garage"; Hass.domain := "cover";
     Hass.name := "Garage"; Hass.state := "closed";
     Hass.attributes :=
       <[Hass.ATTR_SUPPORTED_FEATURES := Hass.AValue (VInt 7)]>
         {[Hass.ATTR_DEVICE_CLASS := Hass.AValue (VStr "garage")]} |}.

(** The mapper with the values const.py gives its names, and a feature
    check that accepts every list. *)
Definition get_accessory_demo :=
  Bridge.get_accessory "faucet" "outlet" "shower" "sprinkler" "switch" "valve"
    "co" "co2" "pm25" "feature_list" (fun _ _ => true).

Definition a_type_of_demo :=
  Bridge.a_type_of "faucet" "outlet" "shower" "sprinkler" "switch" "valve"
    "co" "co2" "pm25" "feature_list" (fun _ _ => true).

End MoreExamples.

(** ** Properties of the aid allocator *)

Module AidManagerProofs.
Import AidManager Examples.

(** Published test vectors of the two hashes. *)
Example adler32_Wikipedia : adler32 (encode "Wikipedia") = 300286872.
Proof. reflexivity. Qed.

Example adler32_empty : adler32 (encode "") = 1.
Proof. reflexivity. Qed.

Example fnv1a_32_foobar : fnv1a_32 (encode "foobar") = 3214735720.
Proof. reflexivity. Qed.

Lemma allocate_from_first pre aid post uid eid self :
  Forall (rejected self) pre → ¬ rejected self aid →
  allocate_from (pre ++ aid :: post) uid eid self = (Return aid, allocated uid aid self).
Proof.
  intros Hpre Hok. induction Hpre as [|c pre Hc _ IH]; simpl.
  - rewrite bool_decide_eq_false_2 by (intros ?; apply Hok; by left).
    rewrite bool_decide_eq_true_2 by (intros ?; apply Hok; by right).
    reflexivity.
  - destruct Hc as [Hc|Hc].
    + by rewrite bool_decide_eq_true_2.
    + case_bool_decide; [done|].
      by rewrite bool_decide_eq_false_2 by (intros Hn; by apply Hn).
Qed.

Lemma allocate_from_exhausted aids uid eid self :
  Forall (rejected self) aids →
  allocate_from aids uid eid self = (Raise (allocation_error uid eid), self).
Proof.
  induction 1 as [|c aids Hc _ IH]; simpl; [done|].
  destruct Hc as [Hc|Hc].
  - by rewrite bool_decide_eq_true_2.
  - case_bool_decide; [done|].
    by rewrite bool_decide_eq_false_2 by (intros Hn; by apply Hn).
Qed.

Lemma allocate_from_cases aids uid eid self :
  allocate_from aids uid eid self = (Raise (allocation_error uid eid), self)
  ∨ ∃ aid, aid ∈ aids ∧ ¬ rejected self aid
           ∧ allocate_from aids uid eid self = (Return aid, allocated uid aid self).
Proof.
  induction aids as [|c aids IH]; simpl; [by left|].
  case_bool_decide as Hinv.
  - destruct IH as [IH|(aid & ? & ? & IH)]; [by left|right].
    exists aid. split_and!; [by apply list_elem_of_further|done|done].
  - case_bool_decide as Hfree.
    + right. exists c. split_and!; [by apply list_elem_of_here| |done].
      intros [?|?]; done.
    + destruct IH as [IH|(aid & ? & ? & IH)]; [by left|right].
      exists aid. split_and!; [by apply list_elem_of_further|done|done].
Qed.

Lemma allocated_distinct uid aid self :
  aids_distinct self → aids_derived self → allocations self !! uid = None →
  aid ∉ allocated_aids self → aids_distinct (allocated uid aid self).
Proof.
  intros Hd Hs Hnone Hfree u1 u2 a. simpl.
  rewrite Hs, not_elem_of_map_img in Hfree.
  rewrite !lookup_insert.
  repeat case_decide; subst; intros; simplify_eq; try done.
  - by destruct (Hfree u2).
  - by destruct (Hfree u1).
  - by eapply Hd.
Qed.

Lemma allocated_derived uid aid self :
  aids_derived self → allocations self !! uid = None →
  aids_derived (allocated uid aid self).
Proof.
  unfold aids_derived. simpl. intros -> Hnone.
  apply set_eq. intros a.
  rewrite elem_of_union, elem_of_singleton, !elem_of_map_img.
  split.
  - intros [->|[u Hu]].
    + exists uid. by rewrite lookup_insert_eq.
    + exists u. rewrite lookup_insert_ne; [done|]. intros ->. congruence.
  - intros [u Hu]. rewrite lookup_insert in Hu. case_decide; simplify_eq; eauto.
Qed.

Lemma delete_aid_distinct uid self :
  aids_distinct self → aids_distinct (delete_aid uid self).
Proof.
  intros Hd. unfold delete_aid.
  destruct (allocations self !! uid) as [aid|] eqn:Hu; [|done].
  intros u1 u2 a. simpl. rewrite !lookup_delete.
  repeat case_decide; try done. apply Hd.
Qed.

Lemma delete_aid_derived uid self :
  aids_distinct self → aids_derived self → aids_derived (delete_aid uid self).
Proof.
  intros Hd Hs. unfold delete_aid.
  destruct (allocations self !! uid) as [aid|] eqn:Hu; [|done].
  unfold aids_derived in *. simpl. rewrite Hs.
  apply set_eq. intros a.
  rewrite elem_of_difference, elem_of_singleton, !elem_of_map_img.
  split.
  - intros [[u Ha] Hne]. exists u. rewrite lookup_delete_ne; [done|].
    intros ->. congruence.
  - intros [u Ha]. rewrite lookup_delete in Ha. case_decide; [done|].
    split; [eauto|]. intros ->. by pose proof (Hd _ _ _ Hu Ha).
Qed.

(** Saving and restarting brings back the table that was in memory. *)
Lemma restart_after_save self :
  allocations (restart (delayed_write (async_schedule_save self))) = allocations self.
Proof. reflexivity. Qed.

Lemma restart_after_save_derived self :
  aids_derived (restart (delayed_write (async_schedule_save self))).
Proof. reflexivity. Qed.

Lemma known_identity rnd uid eid aid self :
  allocations self !! uid = Some aid →
  _get_or_allocate_aid rnd uid eid self = (Return aid, self).
Proof. intros H. unfold _get_or_allocate_aid. by rewrite H. Qed.

(** C1. For an identity already in the allocation table,
    [_get_or_allocate_aid] returns the aid recorded for it and leaves the
    storage as it was, whatever the entity id and the random generator;
    and after the table is saved and loaded again by a restarted storage,
    a call for the same identity still returns that aid and changes
    nothing. *)
Theorem get_or_allocate_aid_stable self uid aid :
  allocations self !! uid = Some aid →
  (∀ rnd eid, _get_or_allocate_aid rnd uid eid self = (Return aid, self))
  ∧ (∀ rnd eid,
       let reloaded := restart (delayed_write (async_schedule_save self)) in
       _get_or_allocate_aid rnd uid eid reloaded = (Return aid, reloaded)).
Proof.
  intros H. split; intros rnd eid.
  - by apply known_identity.
  - apply known_identity. by rewrite restart_after_save.
Qed.

Lemma get_or_allocate_aid_stable_witness :
  (∀ rnd eid,
      _get_or_allocate_aid rnd "demo.light.uid-1" eid single
      = (Return (adler32 (encode "light.demo")), single))
  ∧ (∀ rnd eid,
       let reloaded := restart (delayed_write (async_schedule_save single)) in
       _get_or_allocate_aid rnd "demo.light.uid-1" eid reloaded
       = (Return (adler32 (encode "light.demo")), reloaded)).
Proof.
  apply (get_or_allocate_aid_stable single "demo.light.uid-1").
  reflexivity.
Defined.

(** A call that returns an aid leaves the identity in the table with that
    aid, so every later call finds it there. *)
Lemma allocation_recorded rnd uid eid aid self self' :
  _get_or_allocate_aid rnd uid eid self = (Return aid, self') →
  allocations self' !! uid = Some aid.
Proof.
  unfold _get_or_allocate_aid.
  destruct (allocations self !! uid) as [a|] eqn:Hu.
  - intros [= <- <-]. done.
  - destruct (allocate_from_cases (_generate_aids rnd uid eid) uid eid self)
      as [->|(a & _ & _ & ->)]; [done|].
    intros [= <- <-]. simpl. by rewrite lookup_insert_eq.
Qed.

(** The candidates come in the order of the generator, and the first one
    the loop does not skip is recorded, a save is scheduled, and it is
    returned. *)
Lemma first_free_candidate_wins rnd uid eid self pre aid post :
  allocations self !! uid = None →
  _generate_aids rnd uid eid = pre ++ aid :: post →
  Forall (rejected self) pre → ¬ rejected self aid →
  _generate_aids rnd uid eid
  = [adler32 (encode eid); fnv1a_32 (encode uid);
     randrange AID_MIN AID_MAX (rnd 0%nat); randrange AID_MIN AID_MAX (rnd 1%nat);
     randrange AID_MIN AID_MAX (rnd 2%nat); randrange AID_MIN AID_MAX (rnd 3%nat);
     randrange AID_MIN AID_MAX (rnd 4%nat)]
  ∧ _get_or_allocate_aid rnd uid eid self = (Return aid, allocated uid aid self).
Proof.
  intros Hnone Hsplit Hpre Hok. split; [reflexivity|].
  unfold _get_or_allocate_aid. rewrite Hnone, Hsplit.
  by apply allocate_from_first.
Qed.

(** Two identities whose entity id, and so whose adler32, is the same:
    the second one is given the fnv1a_32 of its identity. *)
Example legacy_hash_collision :
  fst (_get_or_allocate_aid rnd0 "demo.light.uid-2" "light.demo" single)
  = Return (fnv1a_32 (encode "demo.light.uid-2"))
  ∧ fnv1a_32 (encode "demo.light.uid-2") ≠ adler32 (encode "light.demo").
Proof. split; [vm_compute; reflexivity | vm_compute; discriminate]. Qed.

Lemma randrange_bounds start stop r :
  start < stop → start ≤ randrange start stop r < stop.
Proof.
  intros H. unfold randrange.
  pose proof (Z.mod_pos_bound r (stop - start)). lia.
Qed.



Lemma get_or_allocate_aid_cases rnd uid eid self :
  (∃ aid, allocations self !! uid = Some aid
          ∧ _get_or_allocate_aid rnd uid eid self = (Return aid, self))
  ∨ (allocations self !! uid = None
     ∧ _get_or_allocate_aid rnd uid eid self = (Raise (allocation_error uid eid), self))
  ∨ (∃ aid, allocations self !! uid = None ∧ ¬ rejected self aid
            ∧ _get_or_allocate_aid rnd uid eid self = (Return aid, allocated uid aid self)).
Proof.
  unfold _get_or_allocate_aid.
  destruct (allocations self !! uid) as [a|] eqn:Hu; [left; eauto|right].
  destruct (allocate_from_cases (_generate_aids rnd uid eid) uid eid self)
    as [->|(a & _ & ? & ->)]; [left|right]; eauto.
Qed.

(** C3. When the aids of the table are pairwise distinct and the set of
    allocated aids is the set of the table's values, the storage after
    [_get_or_allocate_aid] (whether it returned a known aid, allocated
    one, or raised) and the storage after [delete_aid] have both
    properties again. *)
Theorem allocation_table_invariant self :
  aids_distinct self → aids_derived self →
  (∀ rnd uid eid,
      let self' := snd (_get_or_allocate_aid rnd uid eid self) in
      aids_distinct self' ∧ aids_derived self')
  ∧ (∀ uid,
       let self' := delete_aid uid self in
       aids_distinct self' ∧ aids_derived self').
Proof.
  intros Hd Hs. split.
  - intros rnd uid eid.
    destruct (get_or_allocate_aid_cases rnd uid eid self)
      as [(a & _ & ->)|[[_ ->]|(a & Hnone & Hok & ->)]]; simpl; [done|done|].
    split; [apply allocated_distinct|apply allocated_derived]; try done.
    intros ?. apply Hok. by right.
  - intros uid. split; [by apply delete_aid_distinct|by apply delete_aid_derived].
Qed.

Lemma single_distinct : aids_distinct single.
Proof.
  intros u1 u2 aid. simpl. rewrite !lookup_singleton_Some. intuition congruence.
Qed.

Lemma allocation_table_invariant_witness :
  (∀ rnd uid eid,
      let self' := snd (_get_or_allocate_aid rnd uid eid single) in
      aids_distinct self' ∧ aids_derived self')
  ∧ (∀ uid,
       let self' := delete_aid uid single in
       aids_distinct self' ∧ aids_derived self').
Proof.
  apply (allocation_table_invariant single).
  - exact single_distinct.
  - reflexivity.
Defined.

(** C4. For an identity that is not in the table, when every candidate
    of the generator (the two hashes and the five random draws, seven in
    all) is reserved or already allocated, [_get_or_allocate_aid] raises
    the allocation error naming the entity and the identity, and the
    storage is left as it was. *)
Theorem allocation_exhausted_raises rnd uid eid self :
  allocations self !! uid = None →
  Forall (rejected self) (_generate_aids rnd uid eid) →
  length (_generate_aids rnd uid eid) = 7%nat
  ∧ _get_or_allocate_aid rnd uid eid self = (Raise (allocation_error uid eid), self).
Proof.
  intros Hnone Hall. split; [reflexivity|].
  unfold _get_or_allocate_aid. rewrite Hnone.
  by apply allocate_from_exhausted.
Qed.

Lemma crowded_rejects_all :
  Forall (rejected crowded) (_generate_aids rnd0 "demo.light.uid-1" "light.demo").
Proof.
  repeat constructor; right; apply bool_decide_unpack; vm_compute; exact I.
Qed.

Lemma allocation_exhausted_raises_witness :
  length (_generate_aids rnd0 "demo.light.uid-1" "light.demo") = 7%nat
  ∧ _get_or_allocate_aid rnd0 "demo.light.uid-1" "light.demo" crowded
    = (Raise (allocation_error "demo.light.uid-1" "light.demo"), crowded).
Proof.
  apply (allocation_exhausted_raises rnd0 "demo.light.uid-1" "light.demo" crowded).
  - reflexivity.
  - exact crowded_rejects_all.
Defined.

(** C5, as the claim states it, fails: right after [delete_aid], while
    the store still holds the deleted entry and the save is only
    scheduled, the aid is out of the allocated set and a new identity is
    given it. *)
Lemma delete_aid_frees_before_write :
  let aid := adler32 (encode "light.demo") in
  let deleted := delete_aid "demo.light.uid-1" single in
  (on_disk (store deleted) ≫= (fun table => table !! "demo.light.uid-1")) = Some aid
  ∧ delay_save (store deleted) = Some AID_MANAGER_SAVE_DELAY
  ∧ bool_decide (aid ∈ allocated_aids deleted) = false
  ∧ fst (_get_or_allocate_aid rnd0 "demo.light.uid-2" "light.demo" deleted) = Return aid.
Proof. vm_compute. auto. Qed.

(** C5, amended. For an identity in the table, [delete_aid] removes the
    entry and takes its aid out of the allocated set at once, in memory;
    what is on disk is not touched, a save is scheduled with the save
    delay, and the removal is on disk when that delayed save is
    written. *)
Theorem delete_aid_frees_at_once self uid aid :
  allocations self !! uid = Some aid →
  let deleted := delete_aid uid self in
  allocations deleted !! uid = None
  ∧ (aid ∉ allocated_aids deleted)
  ∧ on_disk (store deleted) = on_disk (store self)
  ∧ delay_save (store deleted) = Some AID_MANAGER_SAVE_DELAY
  ∧ on_disk (store (delayed_write deleted)) = Some (allocations deleted).
Proof.
  intros H. unfold delete_aid. rewrite H. simpl. split_and!; try done.
  - apply lookup_delete_eq.
  - rewrite elem_of_difference, elem_of_singleton. tauto.
Qed.

Lemma delete_aid_frees_at_once_witness :
  let deleted := delete_aid "demo.light.uid-1" single in
  allocations deleted !! "demo.light.uid-1" = None
  ∧ (adler32 (encode "light.demo") ∉ allocated_aids deleted)
  ∧ on_disk (store deleted) = on_disk (store single)
  ∧ delay_save (store deleted) = Some AID_MANAGER_SAVE_DELAY
  ∧ on_disk (store (delayed_write deleted)) = Some (allocations deleted).
Proof.
  apply (delete_aid_frees_at_once single "demo.light.uid-1").
  reflexivity.
Defined.

(** C10. For an entity id without a registry entry,
    [get_or_allocate_aid_for_entity_id] logs the warning and returns
    adler32 of the entity id, and the storage (table, allocated set,
    store with its scheduled save) is left as it was. The value is not
    checked: for the empty entity id it is the reserved aid 1, and for
    ["light.demo"] over the crowded table it is an aid that table has
    already given to another identity. *)
Theorem unregistered_entity_aid_unchecked :
  (∀ rnd eid self,
      _entity_registry self !! eid = None →
      get_or_allocate_aid_for_entity_id rnd eid self
      = (Return (adler32 (encode eid)), [unstable_warning eid], self))
  ∧ (∃ eid, adler32 (encode eid) ∈ INVALID_AIDS)
  ∧ (∃ rnd eid self owner,
        _entity_registry self !! eid = None
        ∧ aids_derived self
        ∧ allocations self !! owner = Some (adler32 (encode eid))
        ∧ adler32 (encode eid) ∈ allocated_aids self
        ∧ fst (fst (get_or_allocate_aid_for_entity_id rnd eid self))
          = Return (adler32 (encode eid))).
Proof.
  split_and!.
  - intros rnd eid self H. unfold get_or_allocate_aid_for_entity_id. by rewrite H.
  - exists "". vm_compute. apply list_elem_of_further, list_elem_of_here.
  - exists rnd0, "light.demo", (crowded_with ∅), "demo.switch.a".
    split_and!;
      first [reflexivity | apply bool_decide_unpack; vm_compute; exact I].
Qed.

Lemma unregistered_entity_aid_unchecked_witness :
  get_or_allocate_aid_for_entity_id rnd0 "light.demo" (crowded_with ∅)
  = (Return (adler32 (encode "light.demo")), [unstable_warning "light.demo"],
     crowded_with ∅).
Proof.
  apply (proj1 unregistered_entity_aid_unchecked rnd0 "light.demo" (crowded_with ∅)).
  reflexivity.
Defined.

End AidManagerProofs.

(** ** Properties of the debounce decorator *)

Module AccessoriesProofs.
Import Accessories.

Section debounce.
Context {Fields : Type}.
Variable DEBOUNCE_TIMEOUT : Z.
Variable methods : string → Method (Fields := Fields).

Local Abbreviation wrapper := (wrapper DEBOUNCE_TIMEOUT).
Local Abbreviation armed := (armed DEBOUNCE_TIMEOUT).
Local Abbreviation burst := (burst DEBOUNCE_TIMEOUT methods).
Local Abbreviation writes := (writes DEBOUNCE_TIMEOUT methods).
Local Abbreviation time_passes := (time_passes methods).

Lemma with_debounce_idle (self : HomeAccessory Fields) :
  debounce self = ∅ → with_debounce ∅ self = self.
Proof. destruct self; simpl; intros ->; reflexivity. Qed.

(** A write to an idle accessory arms one listener. *)
Lemma wrapper_arms func args (self : HomeAccessory Fields) hass :
  debounce self = ∅ → listeners hass = [] →
  armed func args self hass (wrapper func args (self, hass)).
Proof.
  intros Hd Hl. unfold wrapper. rewrite Hd, lookup_empty. simpl.
  exists (next_listener hass). rewrite Hl, delete_empty. simpl.
  split_and!; reflexivity.
Qed.

(** Before the listener is due, time leaves an armed state armed, up to
    the clock: the listener stays where it is. *)
Lemma time_passes_early func args (self0 : HomeAccessory Fields) hass0 dt
    (self : HomeAccessory Fields) hass :
  armed func args self0 hass0 (self, hass) → dt < DEBOUNCE_TIMEOUT →
  time_passes dt (self, hass)
  = (self,
     {| utcnow := utcnow hass + dt; listeners := listeners hass;
        next_listener := next_listener hass;
        bus := bus hass; services := services hass |}).
Proof.
  intros (handle & Hself & Hl & _ & _) Hdt. simpl in *.
  unfold Accessories.time_passes. rewrite Hl.
  rewrite filter_cons_False, filter_nil by (simpl; lia).
  rewrite filter_cons_True, filter_nil by (simpl; lia).
  reflexivity.
Qed.

(** A write within the window removes the armed listener, then
    registers the new one: cancel, then replace. *)
Lemma wrapper_rearms func args args' (self0 : HomeAccessory Fields) hass0 dt st :
  armed func args self0 hass0 st → dt < DEBOUNCE_TIMEOUT →
  armed func args' self0 hass0 (wrapper func args' (time_passes dt st)).
Proof.
  intros Harmed Hdt. destruct st as [self hass].
  rewrite (time_passes_early _ _ _ _ _ _ _ Harmed Hdt).
  destruct Harmed as (handle & Hself & Hl & Hbus & Hsvc). simpl in *.
  unfold Accessories.wrapper. rewrite Hself. simpl.
  rewrite lookup_singleton_eq. simpl. rewrite Hl.
  rewrite filter_cons_False, filter_nil by (simpl; tauto).
  exists (next_listener hass). simpl. split_and!; try done.
  unfold with_debounce; simpl.
  by rewrite delete_singleton_eq, insert_empty.
Qed.

Lemma last_cons {A} (x d : A) l : List.last (x :: l) d = List.last l x.
Proof.
  revert x d. induction l as [|y l IH]; intros x d; [reflexivity|].
  change (List.last (x :: y :: l) d) with (List.last (y :: l) d).
  by rewrite !IH.
Qed.

Lemma burst_armed func later :
  Forall (fun w => fst w < DEBOUNCE_TIMEOUT) later →
  ∀ args (self0 : HomeAccessory Fields) hass0 st,
    armed func args self0 hass0 st →
    armed func (List.last (map snd later) args) self0 hass0 (burst func later st).
Proof.
  induction 1 as [|[dt a] later Hdt _ IH]; intros args self0 hass0 st Harmed;
    [done|].
  simpl in Hdt. cbn [Accessories.burst].
  change (map snd ((dt, a) :: later)) with (a :: map snd later).
  rewrite last_cons. apply IH. by eapply wrapper_rearms.
Qed.

(** Once the delay is over, the armed listener fires: the decorated
    function runs once, on the captured arguments, over the accessory
    as it was before the burst. *)
Lemma time_passes_fires func args (self0 : HomeAccessory Fields) hass0 dt st :
  debounce self0 = ∅ →
  armed func args self0 hass0 st → DEBOUNCE_TIMEOUT ≤ dt →
  ∃ hass, idle_since hass0 hass
          ∧ time_passes dt st = snd (methods func args self0 hass).
Proof.
  intros Hd (handle & Hself & Hl & Hbus & Hsvc) Hdt.
  destruct st as [self hass]. simpl in *.
  unfold Accessories.time_passes. rewrite Hl.
  rewrite filter_cons_True, filter_nil by (simpl; lia).
  rewrite filter_cons_False, filter_nil by (simpl; lia).
  eexists {| utcnow := utcnow hass + dt; listeners := [];
             next_listener := next_listener hass;
             bus := bus hass; services := services hass |}.
  split; [by split_and!|].
  simpl. unfold call_later_listener. rewrite Hself. simpl.
  rewrite lookup_singleton_eq, delete_singleton_eq.
  unfold async_add_executor_job. simpl.
  change (with_debounce ∅ (with_debounce {[func := (handle, args)]} self0))
    with (with_debounce ∅ self0).
  by rewrite with_debounce_idle.
Qed.

(** From an idle accessory (no debounce entry, no listener), a burst of
    N >= 1 writes to one decorated function, each later write less than
    [DEBOUNCE_TIMEOUT] after the one before it, leaves exactly one
    listener registered and one debounce entry, holding the arguments of
    the last write, and no service has been called so far. When the
    delay has passed, that one listener fires and the decorated function
    runs once, on the arguments of the last write, over the accessory as
    it was; for a setter that issues one service call, the host has
    received exactly that call more. *)
Lemma idle_burst_coalesces func first later dt
    (self : HomeAccessory Fields) hass call :
  debounce self = ∅ → listeners hass = [] →
  Forall (fun w => fst w < DEBOUNCE_TIMEOUT) later →
  DEBOUNCE_TIMEOUT ≤ dt →
  (∀ hass', services (snd (snd (methods func (last_args first later) self hass')))
            = services hass' ++ [call]) →
  let pending := writes func first later (self, hass) in
  let final := time_passes dt pending in
  (∃ l, listeners (snd pending) = [l]
        ∧ listener_func l = func
        ∧ debounce (fst pending)
          = {[func := (listener_id l, last_args first later)]})
  ∧ services (snd pending) = services hass
  ∧ (∃ hass', idle_since hass hass'
              ∧ final = snd (methods func (last_args first later) self hass'))
  ∧ services (snd final) = services hass ++ [call]
  ∧ (∀ (self' : HomeAccessory Fields) hass' handle captured args,
        debounce self' !! func = Some (handle, captured) →
        snd (wrapper func args (self', hass'))
        = snd (track_point_in_utc_time func (utcnow hass' + DEBOUNCE_TIMEOUT)
                 (remove_listener handle hass'))).
Proof.
  intros Hd Hl Hlater Hdt Hcall pending final.
  assert (armed func (last_args first later) self hass pending) as Harmed.
  { apply burst_armed; [done|]. by apply wrapper_arms. }
  destruct (time_passes_fires func _ self hass dt pending Hd Harmed Hdt)
    as (hass' & Hidle & Hfinal).
  destruct Harmed as (handle & Hself & Hls & _ & Hsvc).
  split_and!.
  - eexists. split_and!; [exact Hls|reflexivity|]. by rewrite Hself.
  - done.
  - eauto.
  - subst final. rewrite Hfinal, Hcall.
    destruct Hidle as (_ & _ & ->). done.
  - intros self1 hass1 h captured args H.
    unfold Accessories.wrapper. by rewrite H.
Qed.

End debounce.

End AccessoriesProofs.

(** ** Properties of the lock adapter *)

Module TypeLocksProofs.
Import Accessories TypeLocks AdapterExamples.

(** Without the flag, a state change to locked or unlocked is written to
    the target state. *)
Lemma update_state_writes_target hass_state v (self : Lock) :
  _flag_state (fields self) = false →
  hass_state ∈ [STATE_LOCKED; STATE_UNLOCKED] →
  dict_get hass_state HASS_TO_HOMEKIT = Some v →
  char_target_state (fields (update_state hass_state self))
  = set_value v (char_target_state (fields self)).
Proof.
  intros Hflag Hin Hv. unfold update_state. rewrite Hv.
  rewrite bool_decide_eq_true_2 by done. simpl. by rewrite Hflag.
Qed.

(** C7. For a controller write of a target state (0 or 1) followed by the
    hub's state change to the state that value stands for: [set_state]
    returns with the flag set, and [update_state] on the echo leaves the
    target-state characteristic as it was before the write ([set_value]
    is not called on it), writes the current state, and clears the
    flag. *)
Theorem lock_echo_not_written_back v hass_value (self : Lock) hass :
  v = 0 ∨ v = 1 →
  dict_get v HOMEKIT_TO_HASS = Some hass_value →
  let written := set_state v self hass in
  let echoed := update_state hass_value (fst (snd written)) in
  fst written = Return tt
  ∧ _flag_state (fields (fst (snd written))) = true
  ∧ char_target_state (fields echoed) = char_target_state (fields self)
  ∧ char_current_state (fields echoed) = set_value v (char_current_state (fields self))
  ∧ _flag_state (fields echoed) = false.
Proof.
  intros [-> | ->] Hv; vm_compute in Hv; injection Hv as <-;
    unfold set_state; simpl; destruct (truthy (_code (fields self)));
    split_and!; reflexivity.
Qed.

Lemma lock_echo_not_written_back_witness :
  let written := set_state 1 front_door quiet_hass in
  let echoed := update_state "locked" (fst (snd written)) in
  fst written = Return tt
  ∧ _flag_state (fields (fst (snd written))) = true
  ∧ char_target_state (fields echoed) = char_target_state (fields front_door)
  ∧ char_current_state (fields echoed)
    = set_value 1 (char_current_state (fields front_door))
  ∧ _flag_state (fields echoed) = false.
Proof.
  apply (lock_echo_not_written_back 1 "locked" front_door quiet_hass).
  - right. reflexivity.
  - reflexivity.
Defined.

(** C8. [update_state] on the hub state "locked" calls [set_value] with 1
    on the current-state characteristic; [set_state] with 0 returns after
    adding exactly one service call to those dispatched: domain "lock",
    service "unlock", with the entity id of the accessory and, when the
    configured code is set, that code. *)
Theorem lock_locked_is_1_and_write_0_unlocks (self : Lock) hass :
  let updated := update_state "locked" self in
  let written := set_state 0 self hass in
  char_current_state (fields updated) = set_value 1 (char_current_state (fields self))
  ∧ value_of (char_current_state (fields updated)) = 1
  ∧ fst written = Return tt
  ∧ services (snd (snd written))
    = services hass
        ++ [{| call_domain := "lock";
               call_name := "unlock";
               call_data :=
                 if truthy (_code (fields self))
                 then <["code" := _code (fields self)]>
                        {["entity_id" := VStr (entity_id self)]}
                 else {["entity_id" := VStr (entity_id self)]} |}].
Proof.
  unfold set_state, update_state. simpl.
  destruct (truthy (_code (fields self))), (_flag_state (fields self));
    split_and!; reflexivity.
Qed.

End TypeLocksProofs.

(** ** Properties of the thermostat adapter *)

Module TypeThermostatsProofs.
Import Accessories TypeThermostats AdapterExamples.

Section setters.
Variable temperature_to_states : Q → string → Q.
Variable DEBOUNCE_TIMEOUT : Z.

Local Abbreviation set_cooling_threshold :=
  (set_cooling_threshold temperature_to_states).
Local Abbreviation set_heating_threshold :=
  (set_heating_threshold temperature_to_states).
Local Abbreviation set_target_temperature :=
  (set_target_temperature temperature_to_states).
Local Abbreviation wh_set_target_temperature :=
  (wh_set_target_temperature temperature_to_states).
Local Abbreviation thermostat_methods := (thermostat_methods temperature_to_states).
Local Abbreviation write_and_wait :=
  (write_and_wait temperature_to_states DEBOUNCE_TIMEOUT).
Local Abbreviation water_heater_methods :=
  (water_heater_methods temperature_to_states).

Lemma set_cooling_threshold_call v (self : Thermostat) hass heating :
  char_heating_thresh_temp (fields self) = Some heating →
  fst (set_cooling_threshold v self hass) = Return tt
  ∧ services (snd (snd (set_cooling_threshold v self hass)))
    = services hass
        ++ [threshold_call (entity_id self)
              (temperature_to_states v (_unit (fields self)))
              (temperature_to_states (value_of heating) (_unit (fields self)))].
Proof.
  intros H. unfold TypeThermostats.set_cooling_threshold. simpl. rewrite H.
  split; reflexivity.
Qed.

Lemma set_heating_threshold_call v (self : Thermostat) hass cooling :
  char_cooling_thresh_temp (fields self) = Some cooling →
  fst (set_heating_threshold v self hass) = Return tt
  ∧ services (snd (snd (set_heating_threshold v self hass)))
    = services hass
        ++ [threshold_call (entity_id self)
              (temperature_to_states (value_of cooling) (_unit (fields self)))
              (temperature_to_states v (_unit (fields self)))].
Proof.
  intros H. unfold TypeThermostats.set_heating_threshold. simpl. rewrite H.
  split; reflexivity.
Qed.

Lemma set_target_temperature_call v (self : Thermostat) hass :
  services (snd (snd (set_target_temperature v self hass)))
  = services hass
      ++ [temperature_call DOMAIN_CLIMATE (entity_id self)
            (temperature_to_states v (_unit (fields self)))].
Proof. reflexivity. Qed.

Lemma wh_set_target_temperature_call v (self : WaterHeater) hass :
  services (snd (snd (wh_set_target_temperature v self hass)))
  = services hass
      ++ [temperature_call DOMAIN_WATER_HEATER (entity_id self)
            (temperature_to_states v (wh_unit (fields self)))].
Proof. reflexivity. Qed.

Lemma write_and_wait_runs func v (self : Thermostat) hass :
  debounce self = ∅ → listeners hass = [] →
  ∃ hass', idle_since hass hass'
           ∧ write_and_wait func v (self, hass)
             = snd (thermostat_methods func [VFloat v] self hass').
Proof.
  intros Hd Hl. unfold TypeThermostats.write_and_wait.
  apply (AccessoriesProofs.time_passes_fires DEBOUNCE_TIMEOUT thermostat_methods
           func [VFloat v] self hass DEBOUNCE_TIMEOUT _ Hd); [|lia].
  by apply AccessoriesProofs.wrapper_arms.
Qed.

(** C9. For an idle thermostat that has both threshold characteristics:
    [set_cooling_threshold] with [v] returns after adding exactly one
    service call, climate set_temperature, whose target_temp_high is
    [v] and whose target_temp_low is the value of the heating
    threshold characteristic, both converted to the unit of the host;
    [set_heating_threshold] with [v] does the same with the value of
    the cooling threshold characteristic as target_temp_high and [v]
    as target_temp_low; and a controller write through the debounce
    decorator has caused exactly that one call once the delay has
    passed. *)
Theorem threshold_write_sends_both_bounds v (self : Thermostat) hass heating cooling :
  char_heating_thresh_temp (fields self) = Some heating →
  char_cooling_thresh_temp (fields self) = Some cooling →
  debounce self = ∅ → listeners hass = [] →
  let unit := _unit (fields self) in
  let cool_call :=
    {| call_domain := "climate"; call_name := "set_temperature";
       call_data :=
         <["target_temp_low" := VFloat (temperature_to_states (value_of heating) unit)]>
           (<["target_temp_high" := VFloat (temperature_to_states v unit)]>
              {["entity_id" := VStr (entity_id self)]}) |} in
  let heat_call :=
    {| call_domain := "climate"; call_name := "set_temperature";
       call_data :=
         <["target_temp_low" := VFloat (temperature_to_states v unit)]>
           (<["target_temp_high" := VFloat (temperature_to_states (value_of cooling) unit)]>
              {["entity_id" := VStr (entity_id self)]}) |} in
  (fst (set_cooling_threshold v self hass) = Return tt
   ∧ services (snd (snd (set_cooling_threshold v self hass)))
     = services hass ++ [cool_call])
  ∧ (fst (set_heating_threshold v self hass) = Return tt
     ∧ services (snd (snd (set_heating_threshold v self hass)))
       = services hass ++ [heat_call])
  ∧ services (snd (write_and_wait "set_cooling_threshold" v (self, hass)))
    = services hass ++ [cool_call]
  ∧ services (snd (write_and_wait "set_heating_threshold" v (self, hass)))
    = services hass ++ [heat_call].
Proof.
  intros Hh Hc Hd Hl unit cool_call heat_call.
  pose proof (set_cooling_threshold_call v self) as Hcool.
  pose proof (set_heating_threshold_call v self) as Hheat.
  split; [|split; [|split]].
  - by apply (Hcool hass heating).
  - by apply (Hheat hass cooling).
  - destruct (write_and_wait_runs "set_cooling_threshold" v self hass Hd Hl)
      as (hass' & (_ & _ & Hsvc) & ->).
    change (thermostat_methods "set_cooling_threshold" [VFloat v] self hass')
      with (set_cooling_threshold v self hass').
    etrans; [exact (proj2 (Hcool hass' heating Hh))|]. by rewrite Hsvc.
  - destruct (write_and_wait_runs "set_heating_threshold" v self hass Hd Hl)
      as (hass' & (_ & _ & Hsvc) & ->).
    change (thermostat_methods "set_heating_threshold" [VFloat v] self hass')
      with (set_heating_threshold v self hass').
    etrans; [exact (proj2 (Hheat hass' cooling Hc))|]. by rewrite Hsvc.
Qed.

(** Each of the four functions that carry [@debounce] issues one
    service call when it runs on the arguments of a write. *)
Lemma debounced_setters_issue_one_call v :
  (∀ (self : Thermostat) hass heating,
      char_heating_thresh_temp (fields self) = Some heating →
      ∃ call, services (snd (snd (thermostat_methods "set_cooling_threshold"
                                    [VFloat v] self hass)))
              = services hass ++ [call])
  ∧ (∀ (self : Thermostat) hass cooling,
        char_cooling_thresh_temp (fields self) = Some cooling →
        ∃ call, services (snd (snd (thermostat_methods "set_heating_threshold"
                                      [VFloat v] self hass)))
                = services hass ++ [call])
  ∧ (∀ (self : Thermostat) hass,
        ∃ call, services (snd (snd (thermostat_methods "set_target_temperature"
                                      [VFloat v] self hass)))
                = services hass ++ [call])
  ∧ (∀ (self : WaterHeater) hass,
        ∃ call, services (snd (snd (water_heater_methods "set_target_temperature"
                                      [VFloat v] self hass)))
                = services hass ++ [call]).
Proof.
  split; [|split; [|split]].
  - intros self hass heating H. eexists.
    exact (proj2 (set_cooling_threshold_call v self hass heating H)).
  - intros self hass cooling H. eexists.
    exact (proj2 (set_heating_threshold_call v self hass cooling H)).
  - intros self hass. eexists. exact (set_target_temperature_call v self hass).
  - intros self hass. eexists. exact (wh_set_target_temperature_call v self hass).
Qed.

End setters.

Lemma threshold_write_sends_both_bounds_witness :
  let cool_call :=
    {| call_domain := "climate"; call_name := "set_temperature";
       call_data :=
         <["target_temp_low" := VFloat (18 # 1)]>
           (<["target_temp_high" := VFloat (24 # 1)]>
              {["entity_id" := VStr "climate.hallway"]}) |} in
  let heat_call :=
    {| call_domain := "climate"; call_name := "set_temperature";
       call_data :=
         <["target_temp_low" := VFloat (24 # 1)]>
           (<["target_temp_high" := VFloat (26 # 1)]>
              {["entity_id" := VStr "climate.hallway"]}) |} in
  (fst (set_cooling_threshold to_states_celsius (24 # 1) hallway quiet_hass) = Return tt
   ∧ services (snd (snd (set_cooling_threshold to_states_celsius (24 # 1)
                           hallway quiet_hass)))
     = [cool_call])
  ∧ (fst (set_heating_threshold to_states_celsius (24 # 1) hallway quiet_hass) = Return tt
     ∧ services (snd (snd (set_heating_threshold to_states_celsius (24 # 1)
                             hallway quiet_hass)))
       = [heat_call])
  ∧ services (snd (write_and_wait to_states_celsius 500 "set_cooling_threshold"
                     (24 # 1) (hallway, quiet_hass)))
    = [cool_call]
  ∧ services (snd (write_and_wait to_states_celsius 500 "set_heating_threshold"
                     (24 # 1) (hallway, quiet_hass)))
    = [heat_call].
Proof.
  apply (threshold_write_sends_both_bounds to_states_celsius 500 (24 # 1)
           hallway quiet_hass
           (set_value (18 # 1)%Q (configure_char (19 # 1)%Q))
           (set_value (26 # 1)%Q (configure_char (23 # 1)%Q)));
    reflexivity.
Defined.

Example idle_burst_coalesces_hallway :
  let methods := thermostat_methods to_states_celsius in
  let first := [VFloat (20 # 1)] in
  let later := [(100, [VFloat (21 # 1)]); (499, [VFloat (22 # 1)])] in
  let pending :=
    writes 500 methods "set_target_temperature" first later (hallway, quiet_hass) in
  let final := time_passes methods 500 pending in
  (∃ l, listeners (snd pending) = [l]
        ∧ listener_func l = "set_target_temperature"
        ∧ debounce (fst pending)
          = {["set_target_temperature" := (listener_id l, [VFloat (22 # 1)])]})
  ∧ services (snd pending) = []
  ∧ (∃ hass', idle_since quiet_hass hass'
              ∧ final = snd (methods "set_target_temperature" [VFloat (22 # 1)]
                               hallway hass'))
  ∧ services (snd final)
    = [temperature_call "climate" "climate.hallway" (22 # 1)]
  ∧ (∀ (self' : Thermostat) hass' handle captured args,
        debounce self' !! "set_target_temperature" = Some (handle, captured) →
        snd (wrapper 500 "set_target_temperature" args (self', hass'))
        = snd (track_point_in_utc_time "set_target_temperature" (utcnow hass' + 500)
                 (remove_listener handle hass'))).
Proof.
  apply (AccessoriesProofs.idle_burst_coalesces 500
           (thermostat_methods to_states_celsius) "set_target_temperature"
           [VFloat (20 # 1)] [(100, [VFloat (21 # 1)]); (499, [VFloat (22 # 1)])]
           500 hallway quiet_hass
           (temperature_call "climate" "climate.hallway" (22 # 1))).
  - reflexivity.
  - reflexivity.
  - repeat constructor; simpl; lia.
  - lia.
  - intros hass'. reflexivity.
Defined.

End TypeThermostatsProofs.

(** ** The debounce decorator in every state *)

Module DebounceJobsProofs.
Import Accessories DebounceJobs.

Lemma NoDup_fmap_eq {A B} (f : A → B) (l : list A) x y :
  NoDup (f <$> l) → x ∈ l → y ∈ l → f x = f y → x = y.
Proof.
  induction l as [|z l IH]; intros Hnd Hx Hy Hf; [by apply elem_of_nil in Hx|].
  rewrite fmap_cons, NoDup_cons in Hnd. destruct Hnd as [Hz Hnd].
  apply elem_of_cons in Hx, Hy.
  destruct Hx as [->|Hx], Hy as [->|Hy]; [done| | |by apply IH].
  - destruct Hz. rewrite Hf. by apply list_elem_of_fmap_2.
  - destruct Hz. rewrite <- Hf. by apply list_elem_of_fmap_2.
Qed.

Lemma filter_none {A} (P : A → Prop) `{!∀ x, Decision (P x)} (l : list A) :
  (∀ x, x ∈ l → ¬ P x) → filter P l = [].
Proof.
  induction l as [|x l IH]; intros Hall; [done|].
  rewrite filter_cons_False by (apply Hall, list_elem_of_here).
  apply IH. intros y Hy. by apply Hall, list_elem_of_further.
Qed.

(** In a list without two elements of the same key, the elements of one
    key are the one element that has it. *)
Lemma filter_key_unique {A} (key : A → string) (l : list A) x :
  NoDup (key <$> l) → x ∈ l → filter (fun y => key y = key x) l = [x].
Proof.
  induction l as [|z l IH]; intros Hnd Hx; [by apply elem_of_nil in Hx|].
  rewrite fmap_cons, NoDup_cons in Hnd. destruct Hnd as [Hz Hnd].
  apply elem_of_cons in Hx. destruct Hx as [->|Hx].
  - rewrite filter_cons_True by done. f_equal.
    apply filter_none. intros y Hy Heq. apply Hz. rewrite <- Heq.
    by apply list_elem_of_fmap_2.
  - rewrite filter_cons_False; [by apply IH|].
    intros Heq. apply Hz. rewrite Heq. by apply list_elem_of_fmap_2.
Qed.

Section debounce.
Context {Fields : Type}.
Variable DEBOUNCE_TIMEOUT : Z.
Variable methods : string → Method (Fields := Fields).

Local Abbreviation wrapper := (wrapper DEBOUNCE_TIMEOUT).
Local Abbreviation burst := (burst DEBOUNCE_TIMEOUT methods).
Local Abbreviation writes := (writes DEBOUNCE_TIMEOUT methods).
Local Abbreviation time_passes := (time_passes methods).
Local Abbreviation fire := (fire methods).
Local Abbreviation call_later_listener := (call_later_listener methods).
Local Abbreviation fire_jobs := (fire_jobs methods).
Local Abbreviation time_passes_jobs := (time_passes_jobs methods).
Local Abbreviation burst_jobs := (burst_jobs DEBOUNCE_TIMEOUT methods).
Local Abbreviation writes_jobs := (writes_jobs DEBOUNCE_TIMEOUT methods).
Local Abbreviation job_calls := (job_calls methods).
Local Abbreviation passive := (passive methods).
Local Abbreviation reachable := (reachable DEBOUNCE_TIMEOUT methods).
Local Abbreviation consistent := (consistent (Fields := Fields)).
Local Abbreviation Job := (Job (Fields := Fields)).

Implicit Types (ls due : list Listener) (d : gmap string (nat * list value)).
Implicit Types (st : State (Fields := Fields)) (jobs : list Job).

Lemma paired_Permutation ls ls' d next :
  ls ≡ₚ ls' → paired ls d next → paired ls' d next.
Proof.
  intros Hp (Hnd & Hlt & Hl & He). split_and!.
  - by rewrite <- Hp.
  - by rewrite <- Hp.
  - intros l Hin. apply Hl. by rewrite Hp.
  - intros f h a Hf. destruct (He f h a Hf) as (l & Hin & ? & ?).
    exists l. by rewrite <- Hp.
Qed.

(** Two listeners of the same function are the same listener. *)
Lemma paired_func_inj ls d next l1 l2 :
  paired ls d next → l1 ∈ ls → l2 ∈ ls →
  listener_func l1 = listener_func l2 → l1 = l2.
Proof.
  intros (Hnd & _ & Hl & _) H1 H2 Heq.
  destruct (Hl l1 H1) as [a1 E1], (Hl l2 H2) as [a2 E2].
  rewrite Heq in E1. rewrite E1 in E2. injection E2 as Hid _.
  by apply (NoDup_fmap_eq listener_id ls).
Qed.

Lemma paired_NoDup_func ls d next :
  paired ls d next → NoDup (listener_func <$> ls).
Proof.
  intros Hp. pose proof Hp as (Hnd & _ & _ & _).
  apply NoDup_fmap_1 in Hnd.
  apply NoDup_fmap_2_strong; [|done].
  intros l1 l2 H1 H2 Heq. by eapply paired_func_inj.
Qed.

(** The listener at the head fires: its entry is popped. *)
Lemma paired_pop l ls d next :
  paired (l :: ls) d next → paired ls (delete (listener_func l) d) next.
Proof.
  intros Hp. pose proof Hp as (Hnd & Hlt & Hl & He).
  rewrite fmap_cons, NoDup_cons in Hnd. destruct Hnd as [Hfresh Hnd].
  apply Forall_cons in Hlt as [_ Hlt].
  split_and!; [done|done| |].
  - intros l' Hin. destruct (Hl l') as [a Ha]; [by apply list_elem_of_further|].
    exists a. rewrite lookup_delete_ne; [done|].
    intros Heq. apply Hfresh.
    assert (l = l') as ->; [|by apply list_elem_of_fmap_2].
    eapply paired_func_inj;
      [exact Hp|apply list_elem_of_here|by apply list_elem_of_further|done].
  - intros f h a Hf. apply lookup_delete_Some in Hf as [Hne Hf].
    destruct (He f h a Hf) as (l' & Hin & ? & ?).
    exists l'. split_and!; [|done|done].
    apply elem_of_cons in Hin as [->|Hin]; [congruence|done].
Qed.

(** The listeners that are due fire one after the other: each pops the
    entry of its function and submits one job with the captured
    arguments; the other entries, the clock and the listeners that wait
    stay as they are, and the service calls are those of the jobs. *)
Lemma fire_spec due : ∀ (self : HomeAccessory Fields) hass,
  passive →
  paired (due ++ listeners hass) (debounce self) (next_listener hass) →
  utcnow (snd (fire due (self, hass))) = utcnow hass
  ∧ listeners (snd (fire due (self, hass))) = listeners hass
  ∧ next_listener (snd (fire due (self, hass))) = next_listener hass
  ∧ paired (listeners hass) (debounce (fst (fire due (self, hass))))
      (next_listener hass)
  ∧ (∀ g, debounce (fst (fire due (self, hass))) !! g
          = if decide (g ∈ listener_func <$> due) then None else debounce self !! g)
  ∧ job_func <$> fire_jobs due (self, hass) = listener_func <$> due
  ∧ (∀ j, j ∈ fire_jobs due (self, hass) →
          ∃ h, debounce self !! job_func j = Some (h, job_args j))
  ∧ services (snd (fire due (self, hass)))
    = services hass ++ concat (map job_calls (fire_jobs due (self, hass))).
Proof.
  induction due as [|l due IH]; intros self hass Hpassive Hp.
  { simpl. split_and!; try done.
    - intros j Hj. by apply elem_of_nil in Hj.
    - by rewrite app_nil_r. }
  destruct Hp as (Hnd & Hlt & Hl & He).
  destruct (Hl l) as [a Ha]; [apply list_elem_of_here|].
  pose proof (paired_pop l (due ++ listeners hass) (debounce self)
                (next_listener hass) (conj Hnd (conj Hlt (conj Hl He)))) as Hpop.
  cbn [Accessories.fire DebounceJobs.fire_jobs].
  unfold Accessories.call_later_listener, call_later_listener_jobs.
  rewrite Ha. unfold async_add_executor_job. cbn [fst snd].
  set (self_del := with_debounce (delete (listener_func l) (debounce self)) self).
  pose proof (Hpassive (listener_func l) a self_del hass) as Hrun.
  set (job := {| job_func := listener_func l; job_args := a;
                 job_self := self_del; job_hass := hass |}).
  assert (job_calls job
          = drop (length (services hass))
                 (services (snd (snd (methods (listener_func l) a self_del hass)))))
    as Hcalls by reflexivity.
  destruct (methods (listener_func l) a self_del hass) as [r [self1 hass1]].
  cbn [fst snd] in Hrun, Hcalls.
  destruct Hrun as (Hd1 & Hnow1 & Hls1 & Hnext1 & calls & Hsvc1).
  rewrite Hsvc1, drop_app_length in Hcalls.
  destruct (IH self1 hass1 Hpassive) as (Hnow & Hls & Hnext & Hpaired & Hd & Hf & Hj & Hsvc).
  { rewrite Hd1, Hls1, Hnext1. exact Hpop. }
  cbn [fst snd app].
  split_and!.
  - by rewrite Hnow.
  - by rewrite Hls.
  - by rewrite Hnext.
  - by rewrite <- Hls1, <- Hnext1.
  - intros g. rewrite Hd, Hd1. unfold self_del.
    cbn [debounce with_debounce]. rewrite fmap_cons.
    destruct (decide (g = listener_func l)) as [->|Hne].
    + rewrite lookup_delete_eq.
      destruct (decide (listener_func l ∈ listener_func l :: _)) as [_|Hn];
        [by case_decide|].
      destruct Hn. apply list_elem_of_here.
    + rewrite lookup_delete_ne by done.
      destruct (decide (g ∈ listener_func <$> due)) as [Hin|Hin];
        destruct (decide (g ∈ listener_func l :: _)) as [Hin'|Hin']; try done.
      * destruct Hin'. by apply list_elem_of_further.
      * apply elem_of_cons in Hin' as [?|?]; done.
  - rewrite fmap_cons, fmap_cons, <- Hf. reflexivity.
  - intros j Hin. apply elem_of_cons in Hin as [->|Hin]; [by eexists|].
    destruct (Hj j Hin) as [h Hh]. rewrite Hd1 in Hh. simpl in Hh.
    apply lookup_delete_Some in Hh as [_ Hh]. eauto.
  - rewrite Hsvc, Hsvc1. simpl. rewrite Hcalls. by rewrite app_assoc.
Qed.

(** The listeners that are due when the clock has advanced by [dt]. *)
Local Abbreviation due_at dt st :=
  (filter (fun l => point_in_time l ≤ utcnow (snd st) + dt) (listeners (snd st))).

Lemma time_passes_spec dt st :
  passive → consistent st →
  utcnow (snd (time_passes dt st)) = utcnow (snd st) + dt
  ∧ listeners (snd (time_passes dt st))
    = filter (fun l => ¬ point_in_time l ≤ utcnow (snd st) + dt) (listeners (snd st))
  ∧ next_listener (snd (time_passes dt st)) = next_listener (snd st)
  ∧ consistent (time_passes dt st)
  ∧ (∀ g, debounce (fst (time_passes dt st)) !! g
          = if decide (g ∈ listener_func <$> due_at dt st) then None
            else debounce (fst st) !! g)
  ∧ job_func <$> time_passes_jobs dt st = listener_func <$> due_at dt st
  ∧ (∀ j, j ∈ time_passes_jobs dt st →
          ∃ h, debounce (fst st) !! job_func j = Some (h, job_args j))
  ∧ services (snd (time_passes dt st))
    = services (snd st) ++ concat (map job_calls (time_passes_jobs dt st)).
Proof.
  intros Hpassive Hc. destruct st as [self hass].
  unfold Accessories.time_passes, DebounceJobs.time_passes_jobs. cbn [fst snd].
  set (now := utcnow hass + dt).
  set (due := filter (fun l => point_in_time l ≤ now) (listeners hass)).
  set (waiting := filter (fun l => ¬ point_in_time l ≤ now) (listeners hass)).
  set (hass' := {| utcnow := now; listeners := waiting;
                   next_listener := next_listener hass;
                   bus := bus hass; services := services hass |}).
  destruct (fire_spec due self hass' Hpassive)
    as (Hnow & Hls & Hnext & Hpaired & Hd & Hf & Hj & Hsvc).
  { apply (paired_Permutation (listeners hass)); [|exact Hc].
    symmetry. apply filter_app_complement. }
  split_and!; try done.
  unfold DebounceJobs.consistent. by rewrite Hls, Hnext.
Qed.

Lemma due_NoDup_func dt st :
  consistent st → NoDup (listener_func <$> due_at dt st).
Proof.
  intros Hc. apply paired_NoDup_func in Hc.
  eapply sublist_NoDup; [exact Hc|apply fmap_sublist, sublist_filter].
Qed.

(** A function whose listener is due has its entry popped and runs
    once, on the captured arguments. *)
Lemma time_passes_due dt st g :
  passive → consistent st → g ∈ listener_func <$> due_at dt st →
  debounce (fst (time_passes dt st)) !! g = None
  ∧ ∃ j h, jobs_of g (time_passes_jobs dt st) = [j]
           ∧ job_func j = g
           ∧ debounce (fst st) !! g = Some (h, job_args j).
Proof.
  intros Hpassive Hc Hin.
  destruct (time_passes_spec dt st Hpassive Hc)
    as (_ & _ & _ & _ & Hd & Hf & Hj & _).
  split; [by rewrite Hd, decide_True|].
  rewrite <- Hf in Hin. apply list_elem_of_fmap in Hin as (j & -> & Hin).
  destruct (Hj j Hin) as [h Hh]. exists j, h. split_and!; [|done|done].
  apply (filter_key_unique job_func); [|done].
  rewrite Hf. by apply due_NoDup_func.
Qed.

(** A function whose listener is not due keeps its entry, if it has
    one, and does not run. *)
Lemma time_passes_not_due dt st g :
  passive → consistent st → g ∉ listener_func <$> due_at dt st →
  debounce (fst (time_passes dt st)) !! g = debounce (fst st) !! g
  ∧ jobs_of g (time_passes_jobs dt st) = [].
Proof.
  intros Hpassive Hc Hin.
  destruct (time_passes_spec dt st Hpassive Hc)
    as (_ & _ & _ & _ & Hd & Hf & _ & _).
  split; [by rewrite Hd, decide_False|].
  apply filter_none. intros j Hj Heq. apply Hin.
  rewrite <- Hf, <- Heq. by apply list_elem_of_fmap_2.
Qed.

Lemma outcome_refl (x : option (nat * list value)) : outcome (Fields := Fields) x x [].
Proof. destruct x as [[h a]|]; simpl; auto. Qed.

Lemma outcome_trans (x y z : option (nat * list value)) jobs1 jobs2 :
  outcome x y jobs1 → outcome y z jobs2 → outcome x z (jobs1 ++ jobs2).
Proof.
  destruct x as [[h a]|]; simpl.
  - intros [[-> ->]|(-> & j & -> & Hj)]; simpl; [done|].
    intros [-> ->]. right. split; [done|]. by exists j.
  - intros [-> ->]. done.
Qed.

Lemma time_passes_outcome dt st g :
  passive → consistent st →
  outcome (debounce (fst st) !! g) (debounce (fst (time_passes dt st)) !! g)
          (jobs_of g (time_passes_jobs dt st)).
Proof.
  intros Hpassive Hc.
  destruct (decide (g ∈ listener_func <$> due_at dt st)) as [Hin|Hin].
  - destruct (time_passes_due dt st g Hpassive Hc Hin) as (-> & j & h & -> & _ & ->).
    simpl. right. split; [done|]. by exists j.
  - destruct (time_passes_not_due dt st g Hpassive Hc Hin) as [-> ->].
    apply outcome_refl.
Qed.

(** [wrapper] pops the entry and calls its remove handle. *)
Lemma paired_drop func ls d next :
  paired ls d next →
  paired (match d !! func with
          | Some (handle, _) => filter (fun l => listener_id l ≠ handle) ls
          | None => ls
          end)
         (delete func d) next.
Proof.
  intros Hp. pose proof Hp as (Hnd & Hlt & Hl & He).
  destruct (d !! func) as [[h a]|] eqn:E.
  - split_and!.
    + eapply sublist_NoDup; [exact Hnd|apply fmap_sublist, sublist_filter].
    + apply Forall_forall. intros l Hin. apply list_elem_of_filter in Hin as [_ Hin].
      by apply (proj1 (Forall_forall _ _) Hlt).
    + intros l Hin. apply list_elem_of_filter in Hin as [Hid Hin].
      destruct (Hl l Hin) as [a' Ha']. exists a'.
      rewrite lookup_delete_ne; [done|]. intros Heq. rewrite <- Heq, E in Ha'.
      by injection Ha' as -> _.
    + intros f h' a' Hf. apply lookup_delete_Some in Hf as [Hne Hf].
      destruct (He f h' a' Hf) as (l & Hin & Hid & Hfunc).
      exists l. split_and!; [|done|done].
      apply list_elem_of_filter. split; [|done]. intros Hh.
      destruct (He func h a E) as (l0 & Hin0 & Hid0 & Hfunc0).
      assert (l = l0) as ->; [|congruence].
      apply (NoDup_fmap_eq listener_id ls); [done|done|done|congruence].
  - split_and!; [done|done| |].
    + intros l Hin. destruct (Hl l Hin) as [a' Ha']. exists a'.
      rewrite lookup_delete_ne; [done|]. intros Heq. by rewrite <- Heq, E in Ha'.
    + intros f h' a' Hf. apply lookup_delete_Some in Hf as [Hne Hf]. eauto.
Qed.

(** [wrapper] registers the listener and stores the entry. *)
Lemma paired_register func args point ls d next :
  paired ls d next → d !! func = None →
  paired (ls ++ [{| listener_id := next; point_in_time := point;
                    listener_func := func |}])
         (<[func := (next, args)]> d) (S next).
Proof.
  intros (Hnd & Hlt & Hl & He) Hnone. split_and!.
  - rewrite fmap_app. apply NoDup_app. split_and!; [done| |apply NoDup_singleton].
    intros h Hin Hh. apply list_elem_of_singleton in Hh. simpl in Hh. subst h.
    apply list_elem_of_fmap in Hin as (l & Hid & Hin).
    pose proof (proj1 (Forall_forall _ _) Hlt l Hin) as Hlow.
    simpl in Hlow. lia.
  - apply Forall_app. split.
    + eapply Forall_impl; [exact Hlt|]. simpl. lia.
    + apply Forall_cons_2; [simpl; lia|apply Forall_nil_2].
  - intros l Hin. apply elem_of_app in Hin as [Hin|Hin].
    + destruct (Hl l Hin) as [a' Ha']. exists a'.
      rewrite lookup_insert_ne; [done|]. intros Heq. by rewrite <- Heq, Hnone in Ha'.
    + apply list_elem_of_singleton in Hin as ->. simpl.
      exists args. by rewrite lookup_insert_eq.
  - intros f h a Hf. apply lookup_insert_Some in Hf as [[<- [= <- <-]]|[Hne Hf]].
    + exists {| listener_id := next; point_in_time := point; listener_func := func |}.
      split_and!; [|reflexivity|reflexivity].
      apply elem_of_app. right. apply list_elem_of_here.
    + destruct (He f h a Hf) as (l & Hin & ? & ?). exists l.
      split_and!; [|done|done]. apply elem_of_app. by left.
Qed.

(** A write in any consistent state: the state stays consistent, the
    clock, the service calls and the entries of the other functions
    stay, and the function has one entry with the new arguments and
    its listener, due one delay from now. *)
Lemma wrapper_spec func args st :
  consistent st →
  consistent (wrapper func args st)
  ∧ utcnow (snd (wrapper func args st)) = utcnow (snd st)
  ∧ services (snd (wrapper func args st)) = services (snd st)
  ∧ (∀ g, g ≠ func →
          debounce (fst (wrapper func args st)) !! g = debounce (fst st) !! g)
  ∧ ∃ l, l ∈ listeners (snd (wrapper func args st))
         ∧ listener_func l = func
         ∧ point_in_time l = utcnow (snd st) + DEBOUNCE_TIMEOUT
         ∧ debounce (fst (wrapper func args st)) !! func = Some (listener_id l, args).
Proof.
  intros Hc. destruct st as [self hass]. unfold consistent in Hc. cbn [fst snd] in Hc.
  pose proof (paired_drop func _ _ _ Hc) as Hdrop.
  unfold Accessories.wrapper.
  destruct (debounce self !! func) as [[h a]|] eqn:E; cbn [fst snd];
    (split_and!;
     [ unfold DebounceJobs.consistent; simpl;
       apply paired_register; [exact Hdrop|apply lookup_delete_eq]
     | reflexivity
     | reflexivity
     | intros g Hne; simpl; by rewrite lookup_insert_ne, lookup_delete_ne
     | eexists; split_and!;
       [ simpl; apply elem_of_app; right; apply list_elem_of_here
       | reflexivity
       | reflexivity
       | simpl; by rewrite lookup_insert_eq ] ]).
Qed.

(** Every state an accessory reaches is consistent. *)
Lemma reachable_consistent st : passive → reachable st → consistent st.
Proof.
  intros Hpassive. induction 1 as [self hass Hd Hl|func args st _ IH|dt st _ IH
                                   |st st' _ IH Hd Hl Hn].
  - unfold DebounceJobs.consistent. simpl. rewrite Hd, Hl. split_and!.
    + apply NoDup_nil_2.
    + apply Forall_nil_2.
    + intros l Hin. by apply elem_of_nil in Hin.
    + intros f h a Hf. by rewrite lookup_empty in Hf.
  - by apply wrapper_spec.
  - by apply time_passes_spec.
  - unfold DebounceJobs.consistent. by rewrite Hd, Hl, Hn.
Qed.

Local Abbreviation pending_write := (pending_write DEBOUNCE_TIMEOUT).

Lemma wrapper_pending func args st :
  consistent st → pending_write func args (wrapper func args st).
Proof.
  intros Hc. destruct (wrapper_spec func args st Hc)
    as (_ & Hnow & _ & _ & l & Hin & Hf & Hpoint & He).
  exists l. split_and!; try done. by rewrite Hnow.
Qed.

(** Within the window the listener of a pending write is not due. *)
Lemma pending_not_due func args dt st :
  consistent st → pending_write func args st → dt < DEBOUNCE_TIMEOUT →
  func ∉ listener_func <$> due_at dt st.
Proof.
  intros Hc (l & Hin & Hf & Hpoint & He) Hdt Hdue.
  apply list_elem_of_fmap in Hdue as (l' & Hf' & Hdue).
  apply list_elem_of_filter in Hdue as [Hpoint' Hin'].
  assert (l' = l) as ->.
  { eapply paired_func_inj; [exact Hc|done|done|congruence]. }
  lia.
Qed.

(** After the delay it is. *)
Lemma pending_due func args dt st :
  pending_write func args st → DEBOUNCE_TIMEOUT ≤ dt →
  func ∈ listener_func <$> due_at dt st.
Proof.
  intros (l & Hin & Hf & Hpoint & He) Hdt.
  apply (list_elem_of_fmap_2' _ _ l); [|done].
  apply list_elem_of_filter. split; [lia|done].
Qed.

Lemma last_args_cons first dt args later :
  last_args first ((dt, args) :: later) = last_args args later.
Proof.
  unfold last_args. change (map snd ((dt, args) :: later)) with (args :: map snd later).
  generalize (map snd later) as l. intros l. revert first args.
  induction l as [|y l IH]; intros first args; [reflexivity|].
  change (List.last (args :: y :: l) first) with (List.last (y :: l) first).
  rewrite (IH first y). symmetry. apply (IH args y).
Qed.

(** The later writes of a burst, each within the window of the one
    before it: the write stays pending, now with the arguments of the
    last one, the function has not run, the writes pending for other
    functions are kept or have run once, and the service calls are
    those of the jobs. *)
Lemma burst_spec func later :
  passive →
  Forall (fun w => fst w < DEBOUNCE_TIMEOUT) later →
  ∀ args st,
    consistent st → pending_write func args st →
    consistent (burst func later st)
    ∧ pending_write func (last_args args later) (burst func later st)
    ∧ jobs_of func (burst_jobs func later st) = []
    ∧ (∀ g, g ≠ func →
            outcome (debounce (fst st) !! g)
                    (debounce (fst (burst func later st)) !! g)
                    (jobs_of g (burst_jobs func later st)))
    ∧ services (snd (burst func later st))
      = services (snd st) ++ concat (map job_calls (burst_jobs func later st)).
Proof.
  intros Hpassive. induction 1 as [|[dt a] later Hdt _ IH]; intros args st Hc Hp.
  { simpl. split_and!; try done.
    - intros g _. apply outcome_refl.
    - by rewrite app_nil_r. }
  simpl in Hdt. rewrite last_args_cons.
  cbn [Accessories.burst DebounceJobs.burst_jobs].
  pose proof (pending_not_due func args dt st Hc Hp Hdt) as Hnot.
  destruct (time_passes_not_due dt st func Hpassive Hc Hnot) as [_ Hnone].
  destruct (time_passes_spec dt st Hpassive Hc)
    as (_ & _ & _ & Hc1 & _ & _ & _ & Hsvc1).
  destruct (wrapper_spec func a (time_passes dt st) Hc1)
    as (Hc2 & _ & Hsvc2 & Hd2 & _).
  destruct (IH a (wrapper func a (time_passes dt st)) Hc2
              (wrapper_pending func a _ Hc1))
    as (Hc3 & Hp3 & Hnone3 & Hout3 & Hsvc3).
  split_and!; [done|done| | |].
  - unfold jobs_of in *. by rewrite filter_app, Hnone, Hnone3.
  - intros g Hne. unfold jobs_of. rewrite filter_app.
    eapply outcome_trans; [apply (time_passes_outcome dt st g Hpassive Hc)|].
    rewrite <- (Hd2 g Hne). by apply Hout3.
  - rewrite Hsvc3, Hsvc2, Hsvc1, map_app, concat_app. by rewrite app_assoc.
Qed.

Local Abbreviation preserved := (preserved methods).

Lemma fire_preserves inv due : ∀ (self : HomeAccessory Fields) hass,
  preserved inv → inv self →
  inv (fst (fire due (self, hass)))
  ∧ ∀ j, j ∈ fire_jobs due (self, hass) → inv (job_self j).
Proof.
  induction due as [|l due IH]; intros self hass Hpres Hinv.
  { split; [done|]. intros j Hj. by apply elem_of_nil in Hj. }
  pose proof Hpres as [Hd Hm].
  cbn [Accessories.fire DebounceJobs.fire_jobs].
  unfold Accessories.call_later_listener, call_later_listener_jobs.
  destruct (debounce self !! listener_func l) as [[h a]|].
  - unfold async_add_executor_job. cbn [fst snd].
    pose proof (Hm (listener_func l) a _ hass (Hd (delete (listener_func l) (debounce self)) _ Hinv))
      as Hrun.
    destruct (methods (listener_func l) a
                (with_debounce (delete (listener_func l) (debounce self)) self) hass)
      as [r [self1 hass1]].
    destruct (IH self1 hass1 Hpres Hrun) as [Hfinal Hjobs].
    split; [done|]. intros j Hj. cbn [app] in Hj.
    apply elem_of_cons in Hj as [->|Hj]; [by apply Hd|by apply Hjobs].
  - destruct (IH (with_debounce (delete (listener_func l) (debounce self)) self) hass
                Hpres (Hd _ _ Hinv)) as [Hfinal Hjobs].
    split; [done|]. intros j Hj. by apply Hjobs.
Qed.

Lemma time_passes_preserves inv dt st :
  preserved inv → inv (fst st) →
  inv (fst (time_passes dt st))
  ∧ ∀ j, j ∈ time_passes_jobs dt st → inv (job_self j).
Proof.
  destruct st as [self hass]. intros Hpres Hinv.
  unfold Accessories.time_passes, DebounceJobs.time_passes_jobs.
  by apply fire_preserves.
Qed.

Lemma wrapper_preserves inv func args st :
  preserved inv → inv (fst st) → inv (fst (wrapper func args st)).
Proof.
  destruct st as [self hass]. intros [Hd _] Hinv. unfold Accessories.wrapper.
  destruct (debounce self !! func) as [[h a]|]; cbn [fst]; by apply Hd, Hd.
Qed.

Lemma burst_preserves inv func later : ∀ st,
  preserved inv → inv (fst st) → inv (fst (burst func later st)).
Proof.
  induction later as [|[dt a] later IH]; intros st Hpres Hinv; [done|].
  cbn [Accessories.burst]. apply IH; [done|].
  apply wrapper_preserves; [done|]. by apply time_passes_preserves.
Qed.


End debounce.

Import TypeThermostats AdapterExamples.

Ltac passive_setter :=
  simpl; split_and!; try reflexivity;
  first [ eexists; reflexivity | exists []; symmetry; apply app_nil_r ].

Lemma with_value_passive {Fields}
    (setter : Q → HomeAccessory Fields → HomeAssistant
              → result unit * (HomeAccessory Fields * HomeAssistant)) :
  (∀ v self hass,
      let after := snd (setter v self hass) in
      debounce (fst after) = debounce self
      ∧ utcnow (snd after) = utcnow hass
      ∧ listeners (snd after) = listeners hass
      ∧ next_listener (snd after) = next_listener hass
      ∧ ∃ calls, services (snd after) = services hass ++ calls) →
  ∀ args self hass,
    let after := snd (with_value setter args self hass) in
    debounce (fst after) = debounce self
    ∧ utcnow (snd after) = utcnow hass
    ∧ listeners (snd after) = listeners hass
    ∧ next_listener (snd after) = next_listener hass
    ∧ ∃ calls, services (snd after) = services hass ++ calls.
Proof.
  intros Hsetter args self hass. unfold with_value.
  destruct args as [|[| | | |] [|]]; try apply Hsetter; passive_setter.
Qed.

(** The four functions that carry [@debounce] set a flag and call one
    service: they are passive. *)
Lemma decorated_functions_passive (temperature_to_states : Q → string → Q) :
  passive (thermostat_methods temperature_to_states)
  ∧ passive (water_heater_methods temperature_to_states).
Proof.
  split; intros func args self hass.
  - unfold thermostat_methods. repeat case_decide.
    + apply with_value_passive. intros v self' hass'.
      unfold set_cooling_threshold. simpl.
      destruct (char_heating_thresh_temp (fields self')); passive_setter.
    + apply with_value_passive. intros v self' hass'.
      unfold set_heating_threshold. simpl.
      destruct (char_cooling_thresh_temp (fields self')); passive_setter.
    + apply with_value_passive. intros v self' hass'. passive_setter.
    + passive_setter.
  - unfold water_heater_methods. case_decide.
    + apply with_value_passive. intros v self' hass'. passive_setter.
    + passive_setter.
Qed.

Lemma same_thermostat_preserved temperature_to_states self0 :
  preserved (thermostat_methods temperature_to_states) (same_thermostat self0).
Proof.
  split; [intros d self H; exact H|].
  intros func args self hass H. unfold thermostat_methods.
  repeat case_decide; try exact H;
    unfold with_value; destruct args as [|[| | | |] [|]]; try exact H.
  all: try (unfold set_cooling_threshold; simpl;
            destruct (char_heating_thresh_temp (fields self)); exact H).
  all: try (unfold set_heating_threshold; simpl;
            destruct (char_cooling_thresh_temp (fields self)); exact H).
Qed.

Lemma water_heater_preserved temperature_to_states eid unit :
  preserved (water_heater_methods temperature_to_states)
    (fun self => entity_id self = eid ∧ wh_unit (fields self) = unit).
Proof.
  split; [intros d self H; exact H|].
  intros func args self hass H. unfold water_heater_methods.
  case_decide; try exact H.
  unfold with_value; destruct args as [|[| | | |] [|]]; exact H.
Qed.

(** On a thermostat that has both threshold characteristics each of its
    three decorated functions issues one call per run, and so does the
    one of the water heater: the condition on the decorated function
    is met by all four. *)
Lemma decorated_functions_one_call temperature_to_states v
    (self0 : Thermostat) heating cooling :
  char_heating_thresh_temp (fields self0) = Some heating →
  char_cooling_thresh_temp (fields self0) = Some cooling →
  let unit := _unit (fields self0) in
  (∀ self' hass', same_thermostat self0 self' →
      services (snd (snd (thermostat_methods temperature_to_states
                            "set_cooling_threshold" [VFloat v] self' hass')))
      = services hass'
          ++ [threshold_call (entity_id self0) (temperature_to_states v unit)
                (temperature_to_states (value_of heating) unit)])
  ∧ (∀ self' hass', same_thermostat self0 self' →
        services (snd (snd (thermostat_methods temperature_to_states
                              "set_heating_threshold" [VFloat v] self' hass')))
        = services hass'
            ++ [threshold_call (entity_id self0)
                  (temperature_to_states (value_of cooling) unit)
                  (temperature_to_states v unit)])
  ∧ (∀ self' hass', same_thermostat self0 self' →
        services (snd (snd (thermostat_methods temperature_to_states
                              "set_target_temperature" [VFloat v] self' hass')))
        = services hass'
            ++ [temperature_call DOMAIN_CLIMATE (entity_id self0)
                  (temperature_to_states v unit)])
  ∧ (∀ (self' : WaterHeater) hass' eid wh_unit',
        entity_id self' = eid ∧ wh_unit (fields self') = wh_unit' →
        services (snd (snd (water_heater_methods temperature_to_states
                              "set_target_temperature" [VFloat v] self' hass')))
        = services hass'
            ++ [temperature_call DOMAIN_WATER_HEATER eid
                  (temperature_to_states v wh_unit')]).
Proof.
  intros Hh Hc unit. split_and!.
  - intros self' hass' (Hid & Hunit & _ & _ & Hh').
    rewrite <- Hid. unfold unit. rewrite <- Hunit.
    apply (TypeThermostatsProofs.set_cooling_threshold_call
             temperature_to_states v self' hass' heating).
    by rewrite Hh'.
  - intros self' hass' (Hid & Hunit & _ & Hc' & _).
    rewrite <- Hid. unfold unit. rewrite <- Hunit.
    apply (TypeThermostatsProofs.set_heating_threshold_call
             temperature_to_states v self' hass' cooling).
    by rewrite Hc'.
  - intros self' hass' (Hid & Hunit & _).
    rewrite <- Hid. unfold unit. rewrite <- Hunit. reflexivity.
  - intros self' hass' eid u [<- <-]. reflexivity.
Qed.

(** The hallway thermostat with a write of 18 to the heating threshold
    pending. *)
Lemma threshold_pending_reachable :
  reachable 500 (thermostat_methods to_states_celsius)
    (wrapper 500 "set_heating_threshold" [VFloat (18 # 1)] (hallway, quiet_hass)).
Proof. apply reachable_write, reachable_created; reflexivity. Qed.


(** The same run, computed: the write of 18 that was pending for the
    heating threshold came due during the burst and was sent, with the
    cooling threshold of 26 beside it, and the burst itself caused one
    call, with the 22 of its last write. *)
Example burst_beside_pending_threshold :
  let methods := thermostat_methods to_states_celsius in
  let st := wrapper 500 "set_heating_threshold" [VFloat (18 # 1)] (hallway, quiet_hass) in
  let pending :=
    writes 500 methods "set_target_temperature" [VFloat (20 # 1)]
      [(100, [VFloat (21 # 1)]); (499, [VFloat (22 # 1)])] st in
  services (snd pending)
  = [threshold_call "climate.hallway" (26 # 1) (18 # 1)]
  ∧ services (snd (time_passes methods 500 pending))
    = [threshold_call "climate.hallway" (26 # 1) (18 # 1);
       temperature_call "climate" "climate.hallway" (22 # 1)].
Proof. split; reflexivity. Qed.

End DebounceJobsProofs.

(** ** More on the aid allocator *)

Module AidManagerExtra.
Import AidManager AidManagerRegistry Examples.

Lemma adler32_loop_bounds data : ∀ a b,
  0 ≤ a < 65536 → 0 ≤ b < 65536 → 0 ≤ adler32_loop a b data < 2 ^ 32.
Proof.
  induction data as [|x data IH]; intros a b Ha Hb; simpl.
  - split.
    + apply Z.lor_nonneg. split; [apply Z.shiftl_nonneg|]; lia.
    + destruct (Z.eq_dec (Z.lor (Z.shiftl b 16) a) 0) as [->|Hne]; [lia|].
      assert (0 ≤ Z.shiftl b 16) by (apply Z.shiftl_nonneg; lia).
      assert (0 < Z.lor (Z.shiftl b 16) a).
      { assert (0 ≤ Z.lor (Z.shiftl b 16) a) by (apply Z.lor_nonneg; lia). lia. }
      apply Z.log2_lt_pow2; [done|].
      rewrite Z.log2_lor by lia.
      assert (Z.log2 a < 32).
      { destruct (Z.eq_dec a 0) as [->|]; [simpl; lia|].
        apply Z.log2_lt_pow2; lia. }
      assert (Z.log2 (Z.shiftl b 16) < 32).
      { destruct (Z.eq_dec b 0) as [->|]; [simpl; lia|].
        rewrite Z.log2_shiftl by lia.
        assert (Z.log2 b < 16) by (apply Z.log2_lt_pow2; lia). lia. }
      lia.
  - apply IH.
    + pose proof (Z.mod_pos_bound (a + byte_val x) 65521). lia.
    + pose proof (Z.mod_pos_bound (b + (a + byte_val x) mod 65521) 65521). lia.
Qed.

Lemma adler32_bounds data : 0 ≤ adler32 data < 2 ^ 32.
Proof. apply adler32_loop_bounds; lia. Qed.

Lemma fnv1a_32_bounds data : 0 ≤ fnv1a_32 data < 2 ^ 32.
Proof.
  unfold fnv1a_32.
  assert (0 ≤ 2166136261 < 2 ^ 32) as Hinit by lia.
  revert Hinit. generalize 2166136261.
  induction data as [|x data IH]; intros h Hh; simpl; [done|].
  apply IH. apply Z.mod_pos_bound. lia.
Qed.

Lemma candidates_in_range rnd uid eid :
  Forall (fun aid => 0 ≤ aid < 2 ^ 64) (_generate_aids rnd uid eid).
Proof.
  pose proof (adler32_bounds (encode eid)).
  pose proof (fnv1a_32_bounds (encode uid)).
  assert (∀ r, 0 ≤ randrange AID_MIN AID_MAX r < 2 ^ 64) as Hr.
  { intros r. unfold randrange, AID_MIN, AID_MAX.
    pose proof (Z.mod_pos_bound r (18446744073709551615 - 2)). lia. }
  unfold _generate_aids. simpl.
  repeat apply Forall_cons_2; first [lia | apply Hr | done].
Qed.

(** X1. An aid that [_get_or_allocate_aid] gives to an identity that was
    not in the table is a 64-bit value of at least 2, was in the hands of
    no identity before, and is recorded for the identity and in the
    allocated set afterwards. *)
Theorem fresh_aid_is_valid rnd uid eid self aid self' :
  aids_derived self →
  allocations self !! uid = None →
  _get_or_allocate_aid rnd uid eid self = (Return aid, self') →
  2 ≤ aid < 2 ^ 64
  ∧ (∀ owner, allocations self !! owner ≠ Some aid)
  ∧ allocations self' !! uid = Some aid
  ∧ aid ∈ allocated_aids self'.
Proof.
  intros Hs Hnone Hcall. unfold _get_or_allocate_aid in Hcall. rewrite Hnone in Hcall.
  destruct (AidManagerProofs.allocate_from_cases (_generate_aids rnd uid eid) uid eid self)
    as [Hr|(a & Hin & Hok & Hr)]; rewrite Hr in Hcall; [done|].
  injection Hcall as <- <-.
  pose proof (candidates_in_range rnd uid eid) as Hrange.
  rewrite Forall_forall in Hrange. specialize (Hrange _ Hin).
  assert (a ∉ INVALID_AIDS) as Hvalid by (intros ?; apply Hok; by left).
  assert (a ∉ allocated_aids self) as Hfree by (intros ?; apply Hok; by right).
  split_and!.
  - unfold INVALID_AIDS in Hvalid. rewrite !elem_of_cons, elem_of_nil in Hvalid. lia.
  - lia.
  - rewrite Hs, not_elem_of_map_img in Hfree. done.
  - simpl. by rewrite lookup_insert_eq.
  - simpl. apply elem_of_union_l, elem_of_singleton. done.
Qed.

Lemma fresh_aid_is_valid_witness :
  2 ≤ fnv1a_32 (encode "demo.light.uid-2") < 2 ^ 64
  ∧ (∀ owner, allocations single !! owner ≠ Some (fnv1a_32 (encode "demo.light.uid-2")))
  ∧ allocations (allocated "demo.light.uid-2" (fnv1a_32 (encode "demo.light.uid-2")) single)
      !! "demo.light.uid-2" = Some (fnv1a_32 (encode "demo.light.uid-2"))
  ∧ fnv1a_32 (encode "demo.light.uid-2")
    ∈ allocated_aids (allocated "demo.light.uid-2"
                        (fnv1a_32 (encode "demo.light.uid-2")) single).
Proof.
  apply (fresh_aid_is_valid rnd0 "demo.light.uid-2" "light.demo" single).
  - reflexivity.
  - reflexivity.
  - vm_compute. reflexivity.
Defined.

(** X2. Neither [_get_or_allocate_aid] nor [delete_aid] for one identity
    changes what the table holds for another identity. *)
Theorem other_identities_untouched rnd uid eid other self :
  other ≠ uid →
  allocations (snd (_get_or_allocate_aid rnd uid eid self)) !! other
  = allocations self !! other
  ∧ allocations (delete_aid uid self) !! other = allocations self !! other.
Proof.
  intros Hne. split.
  - destruct (AidManagerProofs.get_or_allocate_aid_cases rnd uid eid self)
      as [(a & _ & ->)|[[_ ->]|(a & _ & _ & ->)]]; simpl; try done.
    by rewrite lookup_insert_ne.
  - unfold delete_aid. destruct (allocations self !! uid); simpl; [|done].
    by rewrite lookup_delete_ne.
Qed.

Lemma other_identities_untouched_witness :
  allocations (snd (_get_or_allocate_aid rnd0 "demo.light.uid-2" "light.demo" single))
    !! "demo.light.uid-1"
  = allocations single !! "demo.light.uid-1"
  ∧ allocations (delete_aid "demo.light.uid-2" single) !! "demo.light.uid-1"
    = allocations single !! "demo.light.uid-1".
Proof.
  apply (other_identities_untouched rnd0 "demo.light.uid-2" "light.demo"
           "demo.light.uid-1" single).
  discriminate.
Defined.

(** X3. Allocating an aid to an identity that was not in the table and
    deleting the identity again brings back the table and the allocated
    set as they were; only a save stays scheduled. *)
Theorem allocate_then_delete rnd uid eid self aid self' :
  allocations self !! uid = None →
  _get_or_allocate_aid rnd uid eid self = (Return aid, self') →
  allocations (delete_aid uid self') = allocations self
  ∧ allocated_aids (delete_aid uid self') = allocated_aids self
  ∧ on_disk (store (delete_aid uid self')) = on_disk (store self)
  ∧ delay_save (store (delete_aid uid self')) = Some AID_MANAGER_SAVE_DELAY.
Proof.
  intros Hnone Hcall. unfold _get_or_allocate_aid in Hcall. rewrite Hnone in Hcall.
  destruct (AidManagerProofs.allocate_from_cases (_generate_aids rnd uid eid) uid eid self)
    as [Hr|(a & _ & Hok & Hr)]; rewrite Hr in Hcall; [done|].
  injection Hcall as <- <-.
  unfold delete_aid. simpl. rewrite lookup_insert_eq. simpl.
  split_and!; try done.
  - by rewrite delete_insert_eq, delete_id.
  - assert (a ∉ allocated_aids self) as Hfree by (intros ?; apply Hok; by right).
    apply set_eq. intros x.
    rewrite elem_of_difference, elem_of_union, elem_of_singleton. split.
    + intros [[?|?] ?]; done.
    + intros Hx. split; [by right|]. by intros ->.
Qed.

Lemma allocate_then_delete_witness :
  let self' := allocated "demo.light.uid-2" (fnv1a_32 (encode "demo.light.uid-2")) single in
  allocations (delete_aid "demo.light.uid-2" self') = allocations single
  ∧ allocated_aids (delete_aid "demo.light.uid-2" self') = allocated_aids single
  ∧ on_disk (store (delete_aid "demo.light.uid-2" self')) = on_disk (store single)
  ∧ delay_save (store (delete_aid "demo.light.uid-2" self')) = Some AID_MANAGER_SAVE_DELAY.
Proof.
  apply (allocate_then_delete rnd0 "demo.light.uid-2" "light.demo" single
           (fnv1a_32 (encode "demo.light.uid-2"))).
  - reflexivity.
  - vm_compute. reflexivity.
Defined.

(** X4. [delete_aid] for an identity that is not in the table changes
    nothing and schedules no save, and deleting an identity twice is the
    same as deleting it once. *)
Theorem delete_aid_twice uid self :
  (allocations self !! uid = None → delete_aid uid self = self)
  ∧ delete_aid uid (delete_aid uid self) = delete_aid uid self.
Proof.
  assert (∀ s, allocations s !! uid = None → delete_aid uid s = s) as Hnone.
  { intros s H. unfold delete_aid. by rewrite H. }
  split; [apply Hnone|]. apply Hnone.
  unfold delete_aid. destruct (allocations self !! uid) eqn:H; [|done].
  simpl. apply lookup_delete_eq.
Qed.

Lemma delete_aid_twice_witness :
  delete_aid "demo.light.uid-9" single = single.
Proof.
  apply (proj1 (delete_aid_twice "demo.light.uid-9" single)). reflexivity.
Defined.

(** X5. For an entity with a registry entry the aid goes with the
    identity, not with the entity id: once
    [get_or_allocate_aid_for_entity_id] has returned an aid for it, a
    later call under any other entity id that the registry gives the same
    platform, domain and unique id returns that aid, logs nothing and
    changes nothing. *)
Theorem aid_survives_rename rnd rnd' eid eid' entity entity' registry' self aid log self' :
  _entity_registry self !! eid = Some entity →
  get_or_allocate_aid_for_entity_id rnd eid self = (Return aid, log, self') →
  registry' !! eid' = Some entity' →
  platform entity' = platform entity →
  domain entity' = domain entity →
  unique_id entity' = unique_id entity →
  get_or_allocate_aid_for_entity_id rnd' eid' (registry_now registry' self')
  = (Return aid, [], registry_now registry' self').
Proof.
  intros Hreg Hcall Hreg' Hp Hd Hu.
  unfold get_or_allocate_aid_for_entity_id in *. simpl. rewrite Hreg in Hcall.
  rewrite Hreg'.
  destruct (_get_or_allocate_aid rnd (get_system_unique_id entity)
              (AidManager.entity_id entity) self) as [r s] eqn:Hfirst.
  injection Hcall as -> _ ->.
  apply AidManagerProofs.allocation_recorded in Hfirst.
  replace (get_system_unique_id entity') with (get_system_unique_id entity)
    by (unfold get_system_unique_id; by rewrite Hp, Hd, Hu).
  rewrite (AidManagerProofs.known_identity rnd' _ _ aid (registry_now registry' self'));
    done.
Qed.

Lemma aid_survives_rename_witness :
  let renamed :=
    {| entity_id := "light.kitchen"; platform := "demo";
       domain := "light"; unique_id := "uid-1" |} in
  let registry' : gmap string RegistryEntry := {["light.kitchen" := renamed]} in
  get_or_allocate_aid_for_entity_id rnd0 "light.kitchen" (registry_now registry' single)
  = (Return (adler32 (encode "light.demo")), [], registry_now registry' single).
Proof.
  intros renamed registry'.
  apply (aid_survives_rename rnd0 rnd0 "light.demo" "light.kitchen" demo_entry renamed
           registry' single (adler32 (encode "light.demo")) [] single);
    reflexivity.
Defined.

Lemma first_dot_splits s1 : ∀ s2 r1 r2,
  dot_free s1 → dot_free s2 →
  s1 +:+ "." +:+ r1 = s2 +:+ "." +:+ r2 → s1 = s2 ∧ r1 = r2.
Proof.
  induction s1 as [|c s1 IH]; intros [|c' s2] r1 r2 H1 H2 Heq; simpl in *.
  - by injection Heq.
  - injection Heq as <- _. by destruct H2.
  - injection Heq as -> _. by destruct H1.
  - injection Heq as -> Heq. destruct H1 as [_ H1], H2 as [_ H2].
    destruct (IH s2 r1 r2 H1 H2 Heq) as [-> ->]. done.
Qed.

(** X6. When the platform and the domain of two registry entries hold no
    ".", the entries have the same system-wide unique id only if they have
    the same platform, domain and unique id. *)
Theorem system_unique_id_injective e1 e2 :
  dot_free (platform e1) → dot_free (domain e1) →
  dot_free (platform e2) → dot_free (domain e2) →
  get_system_unique_id e1 = get_system_unique_id e2 →
  platform e1 = platform e2 ∧ domain e1 = domain e2 ∧ unique_id e1 = unique_id e2.
Proof.
  intros Hp1 Hd1 Hp2 Hd2 Heq. unfold get_system_unique_id in Heq.
  apply first_dot_splits in Heq as [Hp Heq]; [|done..].
  apply first_dot_splits in Heq as [Hd Hu]; done.
Qed.

Lemma system_unique_id_injective_witness :
  platform demo_entry = platform demo_entry
  ∧ domain demo_entry = domain demo_entry
  ∧ unique_id demo_entry = unique_id demo_entry.
Proof.
  apply (system_unique_id_injective demo_entry demo_entry);
    first [reflexivity | (simpl; repeat split; discriminate)].
Defined.

(** Without that condition two different identities can share an id. *)
Example system_unique_id_clash :
  get_system_unique_id
    {| entity_id := "a.x"; platform := "hue"; domain := "light"; unique_id := "a.b" |}
  = get_system_unique_id
      {| entity_id := "a.y"; platform := "hue"; domain := "light.a"; unique_id := "b" |}.
Proof. reflexivity. Qed.

(** X7. An allocation is in memory at once but on disk only when the
    delayed save is written: a storage restarted before the write has
    forgotten the new identity, one restarted after it still has it. *)
Theorem restart_before_write_forgets rnd uid eid self aid self' table :
  on_disk (store self) = Some table →
  table !! uid = None →
  allocations self !! uid = None →
  _get_or_allocate_aid rnd uid eid self = (Return aid, self') →
  allocations self' !! uid = Some aid
  ∧ allocations (restart self') !! uid = None
  ∧ allocations (restart (delayed_write self')) !! uid = Some aid.
Proof.
  intros Hdisk Htable Hnone Hcall.
  pose proof (AidManagerProofs.allocation_recorded _ _ _ _ _ _ Hcall) as Hrec.
  unfold _get_or_allocate_aid in Hcall. rewrite Hnone in Hcall.
  destruct (AidManagerProofs.allocate_from_cases (_generate_aids rnd uid eid) uid eid self)
    as [Hr|(a & _ & _ & Hr)]; rewrite Hr in Hcall; [done|].
  injection Hcall as <- <-.
  split_and!; [done| |].
  - unfold restart, async_initialize. simpl. by rewrite Hdisk.
  - unfold restart, async_initialize, delayed_write. simpl. done.
Qed.

Lemma restart_before_write_forgets_witness :
  let aid := fnv1a_32 (encode "demo.light.uid-2") in
  let self' := allocated "demo.light.uid-2" aid single in
  allocations self' !! "demo.light.uid-2" = Some aid
  ∧ allocations (restart self') !! "demo.light.uid-2" = None
  ∧ allocations (restart (delayed_write self')) !! "demo.light.uid-2" = Some aid.
Proof.
  apply (restart_before_write_forgets rnd0 "demo.light.uid-2" "light.demo" single
           (fnv1a_32 (encode "demo.light.uid-2"))
           (allocated "demo.light.uid-2" (fnv1a_32 (encode "demo.light.uid-2")) single)
           {["demo.light.uid-1" := adler32 (encode "light.demo")]}).
  - reflexivity.
  - reflexivity.
  - reflexivity.
  - vm_compute. reflexivity.
Defined.

End AidManagerExtra.

(** ** Properties of the accessory mapper *)

Module BridgeProofs.
Import Accessories Bridge.

(** X8. [generate_aid] gives no aid exactly when adler32 of the entity id
    is 0 or 1; an aid it gives lies between 2 and 2^32 - 1 and is the
    value the allocator returns for that entity id when the registry has
    no entry for it, while for a rejected entity id the allocator still
    returns the reserved value. *)
Theorem generate_aid_against_allocator rnd eid self :
  AidManager._entity_registry self !! eid = None →
  let fallback := fst (fst (AidManager.get_or_allocate_aid_for_entity_id rnd eid self)) in
  match generate_aid eid with
  | Some aid => 2 ≤ aid < 2 ^ 32 ∧ fallback = Return aid
  | None => ∃ aid, (aid = 0 ∨ aid = 1) ∧ fallback = Return aid
  end.
Proof.
  intros Hreg fallback. subst fallback.
  unfold AidManager.get_or_allocate_aid_for_entity_id. rewrite Hreg. simpl.
  unfold generate_aid. case_bool_decide as Hin.
  - exists (AidManager.adler32 (encode eid)). split; [|done].
    rewrite !elem_of_cons, elem_of_nil in Hin. tauto.
  - split; [|done].
    pose proof (AidManagerExtra.adler32_bounds (encode eid)).
    rewrite !elem_of_cons, elem_of_nil in Hin. lia.
Qed.

Lemma generate_aid_against_allocator_witness :
  match generate_aid "" with
  | Some aid =>
      2 ≤ aid < 2 ^ 32
      ∧ fst (fst (AidManager.get_or_allocate_aid_for_entity_id
                    Examples.rnd0 "" (Examples.crowded_with ∅)))
        = Return aid
  | None =>
      ∃ aid, (aid = 0 ∨ aid = 1)
             ∧ fst (fst (AidManager.get_or_allocate_aid_for_entity_id
                           Examples.rnd0 "" (Examples.crowded_with ∅)))
               = Return aid
  end.
Proof.
  apply (generate_aid_against_allocator Examples.rnd0 "" (Examples.crowded_with ∅)).
  reflexivity.
Defined.

Section get_accessory.
Variables TYPE_FAUCET TYPE_OUTLET TYPE_SHOWER TYPE_SPRINKLER TYPE_SWITCH TYPE_VALVE : string.
Variables DEVICE_CLASS_CO DEVICE_CLASS_CO2 DEVICE_CLASS_PM25 : string.
Variable CONF_FEATURE_LIST : string.
Variable validate_media_player_features : Hass.State → Hass.attribute → bool.

Local Abbreviation get_accessory :=
  (get_accessory TYPE_FAUCET TYPE_OUTLET TYPE_SHOWER TYPE_SPRINKLER TYPE_SWITCH
     TYPE_VALVE DEVICE_CLASS_CO DEVICE_CLASS_CO2 DEVICE_CLASS_PM25 CONF_FEATURE_LIST
     validate_media_player_features).
Local Abbreviation a_type_of :=
  (a_type_of TYPE_FAUCET TYPE_OUTLET TYPE_SHOWER TYPE_SPRINKLER TYPE_SWITCH
     TYPE_VALVE DEVICE_CLASS_CO DEVICE_CLASS_CO2 DEVICE_CLASS_PM25 CONF_FEATURE_LIST
     validate_media_player_features).

Lemma land_7 z : Z.land z 7 = 0 ↔ Z.land z 4 = 0 ∧ Z.land z 3 = 0.
Proof.
  change 7 with (Z.lor 4 3). rewrite Z.land_lor_distr_r. apply Z.lor_eq_0_iff.
Qed.

Lemma a_type_of_cover state config :
  Hass.domain state = "cover" → a_type_of state config = cover_a_type state.
Proof. intros H. unfold Bridge.a_type_of. rewrite H. reflexivity. Qed.

(** X9. A cover with a usable aid and an integer feature mask is left out
    exactly when it supports none of open, close and set_position; a
    garage cover that supports open or close is a GarageDoorOpener even if
    it also supports set_position, and any other cover that supports
    set_position is a WindowCovering. *)
Theorem cover_left_out_iff_inoperable state aid config features :
  Hass.domain state = "cover" →
  aid_falsy aid = false →
  Hass.attributes state !! Hass.ATTR_SUPPORTED_FEATURES
  = Some (Hass.AValue (VInt features)) →
  let device_class := Hass.attributes state !! Hass.ATTR_DEVICE_CLASS in
  let a_type := a_type_of state config in
  (get_accessory state aid config = Return None ↔ Z.land features 7 = 0)
  ∧ (Hass.is_str device_class "garage" = true ∧ Z.land features 3 ≠ 0 →
     a_type = Return (Some "GarageDoorOpener"))
  ∧ (Hass.is_str device_class "garage" = false ∧ Z.land features 4 ≠ 0 →
     a_type = Return (Some "WindowCovering")).
Proof.
  intros Hdom Haid Hfeat device_class a_type. subst a_type.
  unfold Bridge.get_accessory. rewrite Haid, (a_type_of_cover _ _ Hdom).
  unfold cover_a_type. rewrite Hfeat. simpl. fold device_class.
  rewrite land_7.
  change (Z.lor SUPPORT_OPEN SUPPORT_CLOSE) with 3.
  change SUPPORT_SET_POSITION with 4.
  destruct (Hass.is_str device_class "garage");
    destruct (Z.eqb_spec (Z.land features 3) 0) as [H3|H3];
    destruct (Z.eqb_spec (Z.land features 4) 0) as [H4|H4];
    simpl; split_and!; try done; try (intros [? ?]; done);
    split; try done; intros [? ?]; done.
Qed.

Ltac closed_member :=
  solve [repeat first [apply list_elem_of_here | apply list_elem_of_further]].

Lemma switch_a_type_range switch_type a_type :
  switch_a_type TYPE_FAUCET TYPE_OUTLET TYPE_SHOWER TYPE_SPRINKLER TYPE_SWITCH
    TYPE_VALVE switch_type = Return (Some a_type) →
  a_type ∈ ["Valve"; "Outlet"; "Switch"].
Proof.
  unfold switch_a_type.
  destruct switch_type as [b|l|[| s | z | q | p q s]]; try done.
  destruct (dict_get s _) as [t|] eqn:Hget; [|done].
  intros [= <-]. unfold SWITCH_TYPES in Hget. simpl in Hget.
  repeat case_decide; simplify_eq; closed_member.
Qed.

(** X10. Whatever the state and the configuration, when [get_accessory]
    returns an accessory the aid was neither [None] nor 0, the domain of
    the state is one of the eighteen it has a rule for, and the class name
    is one of the twenty-one names listed in [accessory_types]. *)
Theorem get_accessory_closed_world state aid config a_type name :
  get_accessory state aid config = Return (Some (a_type, name)) →
  aid_falsy aid = false
  ∧ Hass.domain state ∈ supported_domains
  ∧ a_type ∈ accessory_types.
Proof.
  unfold Bridge.get_accessory. destruct (aid_falsy aid); [done|].
  destruct (a_type_of state config) as [[t|]|e] eqn:Htype; [|done..].
  intros [= -> _]. split; [done|].
  unfold Bridge.a_type_of in Htype. revert Htype.
  repeat (first [case_decide | case_bool_decide]); intros Htype.
  all: try congruence.
  all: try match goal with
           | H : Hass.domain _ = _ |- _ => rewrite H; clear H
           end.
  all: repeat match goal with
              | H : _ ≠ _ |- _ => clear H
              | H : _ ∉ _ |- _ => clear H
              end.
  all: try match goal with
           | H : Hass.domain _ ∈ _ |- _ =>
               rewrite !elem_of_cons, elem_of_nil in H;
               repeat (destruct H as [->|H]); [..|destruct H]
           end.
  all: split; [closed_member|].
  all: try (injection Htype as <-; closed_member).
  all: solve
    [ apply switch_a_type_range in Htype;
      rewrite !elem_of_cons, elem_of_nil in Htype;
      destruct Htype as [->|[->|[->|[]]]]; closed_member
    | unfold cover_a_type in Htype;
      destruct (as_int _); [|done];
      repeat match type of Htype with
             | (if ?c then _ else _) = _ => destruct c
             end; simplify_eq; closed_member
    | unfold sensor_a_type in Htype;
      repeat match type of Htype with
             | (if ?c then _ else _) = _ => destruct c
             end; simplify_eq; closed_member
    | unfold media_player_a_type in Htype;
      destruct (Hass.is_str _ DEVICE_CLASS_TV); [injection Htype as <-; closed_member|];
      destruct (config !! CONF_FEATURE_LIST); [|done];
      destruct (_ && _); [injection Htype as <-; closed_member|done] ].
Qed.

End get_accessory.

Lemma cover_left_out_iff_inoperable_witness :
  let device_class := Hass.attributes MoreExamples.garage_door !! Hass.ATTR_DEVICE_CLASS in
  let a_type := MoreExamples.a_type_of_demo MoreExamples.garage_door ∅ in
  (MoreExamples.get_accessory_demo MoreExamples.garage_door (Some 42) ∅ = Return None
   ↔ Z.land 7 7 = 0)
  ∧ (Hass.is_str device_class "garage" = true ∧ Z.land 7 3 ≠ 0 →
     a_type = Return (Some "GarageDoorOpener"))
  ∧ (Hass.is_str device_class "garage" = false ∧ Z.land 7 4 ≠ 0 →
     a_type = Return (Some "WindowCovering")).
Proof.
  apply (cover_left_out_iff_inoperable "faucet" "outlet" "shower" "sprinkler" "switch"
           "valve" "co" "co2" "pm25" "feature_list" (fun _ _ => true)
           MoreExamples.garage_door (Some 42) ∅ 7);
    reflexivity.
Defined.

Lemma get_accessory_closed_world_witness :
  aid_falsy (Some 42) = false
  ∧ Hass.domain MoreExamples.garage_door ∈ supported_domains
  ∧ "GarageDoorOpener" ∈ accessory_types.
Proof.
  apply (get_accessory_closed_world "faucet" "outlet" "shower" "sprinkler" "switch"
           "valve" "co" "co2" "pm25" "feature_list" (fun _ _ => true)
           MoreExamples.garage_door (Some 42) ∅ "GarageDoorOpener"
           (Hass.AValue (VStr "Garage"))).
  reflexivity.
Defined.

End BridgeProofs.

(** ** Dictionaries and their inversion *)

Module PyProofs.

Lemma dict_get_None {K V} `{EqDecision K} (k : K) (d : dict K V) :
  k ∉ d.*1 → dict_get k d = None.
Proof.
  induction d as [|[k' v'] d IH]; simpl; [done|].
  rewrite not_elem_of_cons. intros [Hne Hnot].
  rewrite IH by done. by rewrite decide_False.
Qed.

Lemma dict_get_elem_of {K V} `{EqDecision K} (k : K) (v : V) (d : dict K V) :
  dict_get k d = Some v → (k, v) ∈ d.
Proof.
  induction d as [|[k' v'] d IH]; simpl; [done|].
  destruct (dict_get k d) as [w|].
  - intros [= ->]. apply list_elem_of_further. by apply IH.
  - case_decide; [|done]. intros [= ->]. subst k'. apply list_elem_of_here.
Qed.

Lemma dict_get_Some {K V} `{EqDecision K} (k : K) (v : V) (d : dict K V) :
  NoDup d.*1 → dict_get k d = Some v ↔ (k, v) ∈ d.
Proof.
  intros Hnodup. split; [apply dict_get_elem_of|].
  induction d as [|[k' v'] d IH]; simpl in *; [by intros ?%elem_of_nil|].
  apply NoDup_cons in Hnodup as [Hfresh Hnodup].
  intros [Heq|Hin]%elem_of_cons.
  - injection Heq as <- <-.
    rewrite dict_get_None by done. by rewrite decide_True.
  - by rewrite (IH Hnodup Hin).
Qed.

(** For a dictionary whose keys are pairwise distinct and whose values are
    pairwise distinct, the inverted dictionary built by the comprehension
    [{c: s for s, c in d.items()}] maps a value back to its key, and to
    nothing else. *)
Lemma dict_invert_round_trip {K V} `{EqDecision K} `{EqDecision V}
    (d : dict K V) (k : K) (v : V) :
  NoDup d.*1 → NoDup d.*2 →
  dict_get k d = Some v ↔ dict_get v (dict_invert d) = Some k.
Proof.
  intros Hk Hv.
  assert ((dict_invert d).*1 = d.*2) as Hfst.
  { unfold dict_invert. rewrite <- list_fmap_compose. by apply list_fmap_ext. }
  rewrite dict_get_Some by done.
  rewrite dict_get_Some by (by rewrite Hfst).
  unfold dict_invert. rewrite list_elem_of_fmap. split.
  - intros Hin. by exists (k, v).
  - intros ([k' v'] & [= -> ->] & Hin). done.
Qed.

Lemma dict_get_is_Some {K V} `{EqDecision K} (k : K) (d : dict K V) :
  k ∈ d.*1 → is_Some (dict_get k d).
Proof.
  induction d as [|[k' v'] d IH]; simpl; [by intros ?%elem_of_nil|].
  intros [->|Hin]%elem_of_cons.
  - destruct (dict_get k' d); [done|]. by rewrite decide_True.
  - destruct (IH Hin) as [w ->]. done.
Qed.

Lemma elem_of_dict_invert {K V} (d : dict K V) (k : K) (v : V) :
  (v, k) ∈ dict_invert d ↔ (k, v) ∈ d.
Proof.
  unfold dict_invert. rewrite list_elem_of_fmap. split.
  - intros ([k' v'] & [= -> ->] & Hin). done.
  - intros Hin. by exists (k, v).
Qed.

Ltac nodup_closed :=
  simpl;
  repeat (apply NoDup_cons_2;
          [rewrite ?elem_of_cons, elem_of_nil; intuition discriminate|]);
  apply NoDup_nil_2.

End PyProofs.

(** ** More on the lock adapter *)

Module TypeLocksExtra.
Import Accessories TypeLocks AdapterExamples.

(** X11. The two tables of the lock are inverse to each other: a hub state
    has protocol value [v] exactly when [v] has that hub state. *)
Theorem lock_tables_inverse hass_state v :
  dict_get hass_state HASS_TO_HOMEKIT = Some v
  ↔ dict_get v HOMEKIT_TO_HASS = Some hass_state.
Proof.
  apply PyProofs.dict_invert_round_trip; PyProofs.nodup_closed.
Qed.

(** X12. A write of a target state other than 0 and 1 makes [set_state]
    raise a KeyError after it has set the flag: nothing is sent to the hub,
    and the flag it leaves behind makes the next change of the hub to
    locked or unlocked skip the target state. *)
Theorem set_state_rejects_other_values v (self : Lock) hass :
  v ≠ 0 → v ≠ 1 →
  let written := set_state v self hass in
  fst written = Raise (KeyError (dict_get v HOMEKIT_TO_HASS))
  ∧ snd (snd written) = hass
  ∧ _flag_state (fields (fst (snd written))) = true
  ∧ char_target_state (fields (update_state STATE_LOCKED (fst (snd written))))
    = char_target_state (fields self)
  ∧ char_target_state (fields (update_state STATE_UNLOCKED (fst (snd written))))
    = char_target_state (fields self).
Proof.
  intros H0 H1.
  destruct (decide (3 = v)) as [<-|H3]; [split_and!; reflexivity|].
  assert (dict_get v HOMEKIT_TO_HASS = None) as Hnone.
  { apply PyProofs.dict_get_None. simpl.
    rewrite !elem_of_cons, elem_of_nil. intuition congruence. }
  unfold set_state. rewrite Hnone. split_and!; reflexivity.
Qed.

Lemma set_state_rejects_other_values_witness :
  let written := set_state 3 front_door quiet_hass in
  fst written = Raise (KeyError (dict_get 3 HOMEKIT_TO_HASS))
  ∧ snd (snd written) = quiet_hass
  ∧ _flag_state (fields (fst (snd written))) = true
  ∧ char_target_state (fields (update_state STATE_LOCKED (fst (snd written))))
    = char_target_state (fields front_door)
  ∧ char_target_state (fields (update_state STATE_UNLOCKED (fst (snd written))))
    = char_target_state (fields front_door).
Proof.
  apply (set_state_rejects_other_values 3 front_door quiet_hass); discriminate.
Defined.

(** X13. [update_state] leaves the accessory as it is for every hub state
    that is not unlocked, locked or unknown; for unknown it writes 3 to the
    current state and touches neither the target state nor the flag. *)
Theorem update_state_ignores_unmapped hass_state (self : Lock) :
  (hass_state ∉ [STATE_UNLOCKED; STATE_LOCKED; STATE_UNKNOWN] →
   update_state hass_state self = self)
  ∧ char_current_state (fields (update_state STATE_UNKNOWN self))
    = set_value 3 (char_current_state (fields self))
  ∧ char_target_state (fields (update_state STATE_UNKNOWN self))
    = char_target_state (fields self)
  ∧ _flag_state (fields (update_state STATE_UNKNOWN self)) = _flag_state (fields self).
Proof.
  split; [|split_and!; reflexivity].
  intros Hnot. unfold update_state.
  rewrite PyProofs.dict_get_None; [done|].
  intros Hin. apply Hnot. simpl in Hin. done.
Qed.

Lemma update_state_ignores_unmapped_witness :
  update_state "jammed" front_door = front_door.
Proof.
  apply (proj1 (update_state_ignores_unmapped "jammed" front_door)).
  rewrite !elem_of_cons, elem_of_nil. intros [H|[H|[H|[]]]]; discriminate H.
Defined.

Lemma update_state_step hass_state v (self : Lock) :
  hass_state ∈ [STATE_LOCKED; STATE_UNLOCKED] →
  dict_get hass_state HASS_TO_HOMEKIT = Some v →
  _flag_state (fields (update_state hass_state self)) = false
  ∧ value_of (char_current_state (fields (update_state hass_state self))) = v
  ∧ (_flag_state (fields self) = false →
     value_of (char_target_state (fields (update_state hass_state self))) = v)
  ∧ (_flag_state (fields self) = true →
     char_target_state (fields (update_state hass_state self))
     = char_target_state (fields self)).
Proof.
  intros Hin Hv. unfold update_state. rewrite Hv.
  rewrite bool_decide_eq_true_2 by done. simpl.
  destruct (_flag_state (fields self)); split_and!; done.
Qed.

(** X14. The flag suppresses one update only: whatever the flag was, after
    two state changes of the hub to the same locked or unlocked state the
    flag is clear and both the current and the target state hold the
    protocol value of that state; and a third such change leaves both
    values as they are. *)
Theorem suppression_is_single_shot hass_state v (self : Lock) :
  hass_state ∈ [STATE_LOCKED; STATE_UNLOCKED] →
  dict_get hass_state HASS_TO_HOMEKIT = Some v →
  let once := update_state hass_state self in
  let twice := update_state hass_state once in
  let thrice := update_state hass_state twice in
  _flag_state (fields once) = false
  ∧ value_of (char_current_state (fields once)) = v
  ∧ value_of (char_target_state (fields twice)) = v
  ∧ value_of (char_current_state (fields twice)) = v
  ∧ value_of (char_target_state (fields thrice)) = v
  ∧ value_of (char_current_state (fields thrice)) = v.
Proof.
  intros Hin Hv once twice thrice.
  destruct (update_state_step hass_state v self Hin Hv) as (Hf1 & Hc1 & _ & _).
  destruct (update_state_step hass_state v once Hin Hv) as (Hf2 & Hc2 & Ht2 & _).
  destruct (update_state_step hass_state v twice Hin Hv) as (_ & Hc3 & Ht3 & _).
  split_and!; auto.
Qed.

Lemma suppression_is_single_shot_witness :
  let once := update_state "unlocked" front_door in
  let twice := update_state "unlocked" once in
  let thrice := update_state "unlocked" twice in
  _flag_state (fields once) = false
  ∧ value_of (char_current_state (fields once)) = 0
  ∧ value_of (char_target_state (fields twice)) = 0
  ∧ value_of (char_current_state (fields twice)) = 0
  ∧ value_of (char_target_state (fields thrice)) = 0
  ∧ value_of (char_current_state (fields thrice)) = 0.
Proof.
  apply (suppression_is_single_shot "unlocked" 0 front_door).
  - apply list_elem_of_further, list_elem_of_here.
  - reflexivity.
Defined.

End TypeLocksExtra.

(** ** The modes of the thermostat *)

Module TypeThermostatsModes.
Import Accessories TypeThermostats TypeThermostatsState.

Lemma HC_HASS_TO_HOMEKIT_lookup s c :
  dict_get s HC_HASS_TO_HOMEKIT = Some c ↔ (s, c) ∈ HC_HASS_TO_HOMEKIT.
Proof. apply PyProofs.dict_get_Some. PyProofs.nodup_closed. Qed.

Lemma elem_of_hc_homekit_to_hass hvac_modes c s :
  (c, s) ∈ hc_homekit_to_hass hvac_modes
  ↔ (s, c) ∈ HC_HASS_TO_HOMEKIT
    ∧ hc_mode_kept (default default_hc_modes hvac_modes) s = true.
Proof.
  unfold hc_homekit_to_hass. rewrite PyProofs.elem_of_dict_invert.
  rewrite list_elem_of_In, filter_In, <- list_elem_of_In. done.
Qed.

(** The modes of the table, one by one. *)
Lemma HC_HASS_TO_HOMEKIT_cases s c :
  (s, c) ∈ HC_HASS_TO_HOMEKIT →
  (s = HVAC_MODE_OFF ∧ c = 0) ∨ (s = HVAC_MODE_HEAT ∧ c = 1)
  ∨ (s = HVAC_MODE_COOL ∧ c = 2) ∨ (s = HVAC_MODE_AUTO ∧ c = 3)
  ∨ (s = HVAC_MODE_HEAT_COOL ∧ c = 3) ∨ (s = HVAC_MODE_FAN_ONLY ∧ c = 2).
Proof.
  unfold HC_HASS_TO_HOMEKIT. rewrite !elem_of_cons, elem_of_nil.
  intros [H|[H|[H|[H|[H|[H|[]]]]]]]; injection H as -> ->; tauto.
Qed.

Lemma kept_iff hc_modes s :
  hc_mode_kept hc_modes s = true
  ↔ s ∈ hc_modes
    ∧ ¬ (s = HVAC_MODE_HEAT_COOL ∧ HVAC_MODE_AUTO ∈ hc_modes)
    ∧ ¬ (s = HVAC_MODE_FAN_ONLY ∧ HVAC_MODE_COOL ∈ hc_modes).
Proof.
  unfold hc_mode_kept.
  rewrite andb_true_iff, negb_true_iff, orb_false_iff, !andb_false_iff.
  rewrite bool_decide_eq_true, !bool_decide_eq_false, !String.eqb_neq.
  destruct (decide (HVAC_MODE_AUTO ∈ hc_modes)), (decide (HVAC_MODE_COOL ∈ hc_modes));
    tauto.
Qed.

(** X15. The protocol values the controller may write as target mode are
    exactly the values of the modes the entity lists (or of heat, cool,
    heat_cool and off when it lists none): a value that
    [hc_homekit_to_hass] maps is mapped to a listed mode that has this
    value in [HC_HASS_TO_HOMEKIT], and the value of every listed mode of
    that table is mapped. *)
Theorem hc_homekit_to_hass_valid_values hvac_modes :
  let hc_modes := default default_hc_modes hvac_modes in
  (∀ c s, dict_get c (hc_homekit_to_hass hvac_modes) = Some s →
          s ∈ hc_modes ∧ dict_get s HC_HASS_TO_HOMEKIT = Some c)
  ∧ (∀ s c, s ∈ hc_modes → dict_get s HC_HASS_TO_HOMEKIT = Some c →
            is_Some (dict_get c (hc_homekit_to_hass hvac_modes))).
Proof.
  intros hc_modes. split.
  - intros c s Hget. apply PyProofs.dict_get_elem_of in Hget.
    apply elem_of_hc_homekit_to_hass in Hget as [Hin Hkept].
    apply kept_iff in Hkept as [? _]. by rewrite HC_HASS_TO_HOMEKIT_lookup.
  - intros s c Hin Hget. apply HC_HASS_TO_HOMEKIT_lookup in Hget.
    assert (∃ s', (s', c) ∈ HC_HASS_TO_HOMEKIT ∧ hc_mode_kept hc_modes s' = true)
      as (s' & Hin' & Hkept).
    { destruct (decide (s = HVAC_MODE_HEAT_COOL ∧ HVAC_MODE_AUTO ∈ hc_modes))
        as [[-> Hauto]|Hhc].
      { exists HVAC_MODE_AUTO.
        apply HC_HASS_TO_HOMEKIT_cases in Hget
          as [[? ->]|[[? ->]|[[? ->]|[[? ->]|[[? ->]|[? ->]]]]]]; try done.
        split; [by repeat first [apply list_elem_of_here|apply list_elem_of_further]|].
        apply kept_iff. split_and!; [done|by intros [? _]|by intros [? _]]. }
      destruct (decide (s = HVAC_MODE_FAN_ONLY ∧ HVAC_MODE_COOL ∈ hc_modes))
        as [[-> Hcool]|Hfan].
      { exists HVAC_MODE_COOL.
        apply HC_HASS_TO_HOMEKIT_cases in Hget
          as [[? ->]|[[? ->]|[[? ->]|[[? ->]|[[? ->]|[? ->]]]]]]; try done.
        split; [by repeat first [apply list_elem_of_here|apply list_elem_of_further]|].
        apply kept_iff. split_and!; [done|by intros [? _]|by intros [? _]]. }
      exists s. split; [done|]. by apply kept_iff. }
    apply PyProofs.dict_get_is_Some, list_elem_of_fmap.
    exists (c, s'). split; [done|]. by apply elem_of_hc_homekit_to_hass.
Qed.

(** X16. Where two modes of the hub share a protocol value, the more
    specific one is the one a controller write is translated to: 3 stands
    for auto whenever auto is listed and for heat_cool only when heat_cool
    is listed and auto is not; 2 stands for cool whenever cool is listed
    and for fan_only only when fan_only is listed and cool is not. *)
Theorem hc_homekit_to_hass_prefers hvac_modes :
  let hc_modes := default default_hc_modes hvac_modes in
  let table := hc_homekit_to_hass hvac_modes in
  (dict_get 3 table = Some HVAC_MODE_AUTO ↔ HVAC_MODE_AUTO ∈ hc_modes)
  ∧ (dict_get 3 table = Some HVAC_MODE_HEAT_COOL
     ↔ HVAC_MODE_HEAT_COOL ∈ hc_modes ∧ HVAC_MODE_AUTO ∉ hc_modes)
  ∧ (dict_get 2 table = Some HVAC_MODE_COOL ↔ HVAC_MODE_COOL ∈ hc_modes)
  ∧ (dict_get 2 table = Some HVAC_MODE_FAN_ONLY
     ↔ HVAC_MODE_FAN_ONLY ∈ hc_modes ∧ HVAC_MODE_COOL ∉ hc_modes).
Proof.
  intros hc_modes table.
  assert (∀ c s, dict_get c table = Some s
                 ↔ (s, c) ∈ HC_HASS_TO_HOMEKIT ∧ hc_mode_kept hc_modes s = true)
    as Hlookup.
  { intros c s. subst table hc_modes. rewrite <- elem_of_hc_homekit_to_hass.
    split; [apply PyProofs.dict_get_elem_of|]. intros Hin.
    destruct (PyProofs.dict_get_is_Some c (hc_homekit_to_hass hvac_modes)) as [s' Hs'].
    { apply list_elem_of_fmap. by exists (c, s). }
    rewrite Hs'. f_equal.
    apply PyProofs.dict_get_elem_of in Hs'.
    apply elem_of_hc_homekit_to_hass in Hs' as [Hc' Hk'].
    apply elem_of_hc_homekit_to_hass in Hin as [Hc Hk].
    apply kept_iff in Hk as (? & ? & ?). apply kept_iff in Hk' as (? & ? & ?).
    apply HC_HASS_TO_HOMEKIT_cases in Hc
      as [[-> ->]|[[-> ->]|[[-> ->]|[[-> ->]|[[-> ->]|[-> ->]]]]]];
      apply HC_HASS_TO_HOMEKIT_cases in Hc'
        as [[-> ?]|[[-> ?]|[[-> ?]|[[-> ?]|[[-> ?]|[-> ?]]]]]];
      try done; tauto. }
  rewrite !Hlookup, !kept_iff.
  assert ((HVAC_MODE_AUTO, 3) ∈ HC_HASS_TO_HOMEKIT
          ∧ (HVAC_MODE_HEAT_COOL, 3) ∈ HC_HASS_TO_HOMEKIT
          ∧ (HVAC_MODE_COOL, 2) ∈ HC_HASS_TO_HOMEKIT
          ∧ (HVAC_MODE_FAN_ONLY, 2) ∈ HC_HASS_TO_HOMEKIT) as (? & ? & ? & ?).
  { split_and!; repeat first [apply list_elem_of_here | apply list_elem_of_further]. }
  assert (HVAC_MODE_AUTO ≠ HVAC_MODE_HEAT_COOL) by discriminate.
  assert (HVAC_MODE_AUTO ≠ HVAC_MODE_FAN_ONLY) by discriminate.
  assert (HVAC_MODE_COOL ≠ HVAC_MODE_HEAT_COOL) by discriminate.
  assert (HVAC_MODE_COOL ≠ HVAC_MODE_FAN_ONLY) by discriminate.
  assert (HVAC_MODE_HEAT_COOL ≠ HVAC_MODE_FAN_ONLY) by discriminate.
  assert (HVAC_MODE_FAN_ONLY ≠ HVAC_MODE_HEAT_COOL) by discriminate.
  tauto.
Qed.

End TypeThermostatsModes.

(** ** State changes and mode writes of the thermostat *)

Module TypeThermostatsStateProofs.
Import Accessories TypeThermostats TypeThermostatsState.

(** X17. For a thermostat whose mode table was built from the listed
    modes, [set_heat_cool] sets the flag first; for a value the table maps
    it then issues exactly one climate set_hvac_mode call whose hvac_mode
    is a listed mode with that protocol value, and for any other value it
    raises a KeyError and sends nothing. *)
Theorem set_heat_cool_sends_listed_mode v hvac_modes (self : ThermostatObject) hass :
  hc_homekit_to_hass_of (fields self) = hc_homekit_to_hass hvac_modes →
  let written := set_heat_cool v self hass in
  _flag_heat_cool (core (fields (fst (snd written)))) = true
  ∧ match dict_get v (hc_homekit_to_hass hvac_modes) with
    | Some mode =>
        mode ∈ default default_hc_modes hvac_modes
        ∧ dict_get mode HC_HASS_TO_HOMEKIT = Some v
        ∧ fst written = Return tt
        ∧ services (snd (snd written))
          = services hass
              ++ [{| call_domain := "climate"; call_name := "set_hvac_mode";
                     call_data :=
                       <["hvac_mode" := VStr mode]>
                         {["entity_id" := VStr (entity_id self)]} |}]
    | None => fst written = Raise (KeyError None) ∧ snd (snd written) = hass
    end.
Proof.
  intros Htable written. subst written. unfold set_heat_cool. simpl.
  rewrite Htable.
  destruct (dict_get v (hc_homekit_to_hass hvac_modes)) as [mode|] eqn:Hget;
    simpl; [|done].
  destruct (TypeThermostatsModes.hc_homekit_to_hass_valid_values hvac_modes)
    as [Hsound _].
  destruct (Hsound _ _ Hget). done.
Qed.

Lemma set_heat_cool_sends_listed_mode_witness :
  let self :=
    TypeThermostatsState.__init__ "Hallway" "climate.hallway" "°C" 0
      (Some ["heat"; "auto"; "heat_cool"; "off"]) in
  let written := set_heat_cool 3 self AdapterExamples.quiet_hass in
  _flag_heat_cool (core (fields (fst (snd written)))) = true
  ∧ match dict_get 3 (hc_homekit_to_hass (Some ["heat"; "auto"; "heat_cool"; "off"])) with
    | Some mode =>
        mode ∈ default default_hc_modes (Some ["heat"; "auto"; "heat_cool"; "off"])
        ∧ dict_get mode HC_HASS_TO_HOMEKIT = Some 3
        ∧ fst written = Return tt
        ∧ services (snd (snd written))
          = services AdapterExamples.quiet_hass
              ++ [{| call_domain := "climate"; call_name := "set_hvac_mode";
                     call_data :=
                       <["hvac_mode" := VStr mode]>
                         {["entity_id" := VStr (entity_id self)]} |}]
    | None =>
        fst written = Raise (KeyError None)
        ∧ snd (snd written) = AdapterExamples.quiet_hass
    end.
Proof.
  apply (set_heat_cool_sends_listed_mode 3 (Some ["heat"; "auto"; "heat_cool"; "off"])).
  reflexivity.
Defined.

(** The mode that witness sends is auto, not heat_cool. *)
Example set_heat_cool_3_is_auto :
  dict_get 3 (hc_homekit_to_hass (Some ["heat"; "auto"; "heat_cool"; "off"]))
  = Some "auto".
Proof. reflexivity. Qed.

Section update_state.
Variable temperature_to_states : Q → string → Q.
Variable temperature_to_homekit : Q → string → Q.

Local Abbreviation update_temperatures := (update_temperatures temperature_to_homekit).
Local Abbreviation update_state := (update_state temperature_to_homekit).

Lemma update_temperatures_flags attributes f :
  let f' := update_temperatures attributes f in
  _flag_temperature f' = false
  ∧ _flag_coolingthresh f' = false
  ∧ _flag_heatingthresh f' = false
  ∧ _flag_heat_cool f' = _flag_heat_cool f
  ∧ _unit f' = _unit f.
Proof.
  unfold TypeThermostatsState.update_temperatures.
  destruct f as [u fhc ft fc fh ctt [ccool|] [cheat|]]; simpl;
    destruct (Hass.as_number (attributes !! Hass.ATTR_TEMPERATURE)),
      (Hass.as_number (attributes !! ATTR_TARGET_TEMP_HIGH)),
      (Hass.as_number (attributes !! ATTR_TARGET_TEMP_LOW)), ft, fc, fh;
    simpl; split_and!; reflexivity.
Qed.

Lemma update_temperatures_target attributes f :
  char_target_temp (update_temperatures attributes f)
  = match Hass.as_number (attributes !! Hass.ATTR_TEMPERATURE) with
    | Some t =>
        if _flag_temperature f then char_target_temp f
        else set_value (temperature_to_homekit t (_unit f)) (char_target_temp f)
    | None => char_target_temp f
    end.
Proof.
  unfold TypeThermostatsState.update_temperatures.
  destruct f as [u fhc ft fc fh ctt [ccool|] [cheat|]]; simpl;
    destruct (Hass.as_number (attributes !! Hass.ATTR_TEMPERATURE)),
      (Hass.as_number (attributes !! ATTR_TARGET_TEMP_HIGH)),
      (Hass.as_number (attributes !! ATTR_TARGET_TEMP_LOW)), ft, fc, fh;
    reflexivity.
Qed.

(** X18. A hub state change that follows a controller write of the target
    temperature does not write the target temperature characteristic and
    clears the flag, whatever temperature the state carries; the state
    change after that writes the temperature of the state, converted for
    the protocol. *)
Theorem target_temperature_echo_suppressed v t attributes (self : Thermostat) hass :
  Hass.as_number (attributes !! Hass.ATTR_TEMPERATURE) = Some t →
  let written := fst (snd (set_target_temperature temperature_to_states v self hass)) in
  let echoed := update_temperatures attributes (fields written) in
  let again := update_temperatures attributes echoed in
  _flag_temperature (fields written) = true
  ∧ char_target_temp echoed = char_target_temp (fields self)
  ∧ _flag_temperature echoed = false
  ∧ char_target_temp again
    = set_value (temperature_to_homekit t (_unit (fields self)))
        (char_target_temp (fields self)).
Proof.
  intros Ht written echoed again.
  assert (fields written = set_flag_temperature true (fields self)) as Hw by reflexivity.
  destruct (update_temperatures_flags attributes (fields written))
    as (Hflag & _ & _ & _ & Hunit).
  assert (char_target_temp echoed = char_target_temp (fields self)) as Hecho.
  { subst echoed. rewrite update_temperatures_target, Ht, Hw. reflexivity. }
  split_and!; [by rewrite Hw|done|done|].
  subst again. rewrite update_temperatures_target, Ht.
  fold echoed in Hflag, Hunit. rewrite Hflag, Hunit, Hecho, Hw. reflexivity.
Qed.

Local Abbreviation update_before_mode := (update_before_mode temperature_to_homekit).

(** What the first part leaves alone. *)
Lemma update_before_mode_frame new_state (self : ThermostatObject) :
  let self' := update_before_mode new_state self in
  core (fields self')
  = update_temperatures (Hass.attributes new_state) (core (fields self))
  ∧ hc_homekit_to_hass_of (fields self') = hc_homekit_to_hass_of (fields self)
  ∧ char_target_heat_cool (fields self') = char_target_heat_cool (fields self)
  ∧ char_current_heat_cool (fields self') = char_current_heat_cool (fields self).
Proof.
  unfold TypeThermostatsState.update_before_mode.
  destruct (Hass.as_number (Hass.attributes new_state !! ATTR_CURRENT_TEMPERATURE)),
    (dict_get (_unit (core (fields self))) UNIT_HASS_TO_HOMEKIT),
    (negb (_unit (core (fields self)) =? "")%string); simpl; split_and!; reflexivity.
Qed.

(** The three outcomes of the target mode step. *)
Lemma update_target_mode_cases hvac_mode (self : ThermostatObject) :
  update_target_mode hvac_mode self = Return self
  ∨ (∃ msg, update_target_mode hvac_mode self = Raise (ValueError msg))
  ∨ (∃ v, dict_get hvac_mode HC_HASS_TO_HOMEKIT = Some v
          ∧ _flag_heat_cool (core (fields self)) = false
          ∧ is_Some (dict_get v (hc_homekit_to_hass_of (fields self)))
          ∧ update_target_mode hvac_mode self
            = Return (with_fields (set_target_heat_cool v (fields self)) self)).
Proof.
  unfold update_target_mode.
  destruct (dict_get hvac_mode HC_HASS_TO_HOMEKIT) as [v|] eqn:Hv; [|by left].
  destruct (negb (hvac_mode =? "")%string); simpl; [|by left].
  destruct (_flag_heat_cool (core (fields self))) eqn:Hflag; simpl; [by left|].
  destruct (dict_get v (hc_homekit_to_hass_of (fields self))) as [mode|] eqn:Hback.
  - right. right. exists v. split_and!; eauto.
  - right. left. eauto.
Qed.

Lemma update_current_mode_core attributes (self : ThermostatObject) :
  core (fields (snd (update_current_mode attributes self))) = core (fields self)
  ∧ char_target_heat_cool (fields (snd (update_current_mode attributes self)))
    = char_target_heat_cool (fields self).
Proof.
  unfold update_current_mode.
  destruct (attributes !! ATTR_HVAC_ACTION) as [a|]; [|done].
  destruct (Hass.attribute_truthy a); [|done].
  destruct (action_value a); done.
Qed.

(** X19. Whatever the new state holds and whether [update_state] returns
    or raises, the flags of the target temperature and of the two
    thresholds are clear afterwards; the flag of the target mode is clear
    as well unless the call ended in the ValueError of the target mode
    characteristic. *)
Theorem update_state_clears_flags new_state (self : ThermostatObject) :
  let r := update_state new_state self in
  let f := core (fields (snd r)) in
  _flag_temperature f = false
  ∧ _flag_coolingthresh f = false
  ∧ _flag_heatingthresh f = false
  ∧ match fst r with
    | Raise (ValueError _) => True
    | _ => _flag_heat_cool f = false
    end.
Proof.
  destruct (update_before_mode_frame new_state self) as (Hcore & _).
  destruct (update_temperatures_flags (Hass.attributes new_state) (core (fields self)))
    as (Hft & Hfc & Hfh & _).
  rewrite <- Hcore in Hft, Hfc, Hfh.
  unfold TypeThermostatsState.update_state.
  destruct (update_target_mode_cases (Hass.state new_state)
              (update_before_mode new_state self))
    as [->|[[msg ->]|(v & _ & _ & _ & ->)]]; simpl.
  - match goal with |- context [update_current_mode ?a ?s] =>
      destruct (update_current_mode_core a s) as [Hc _];
      destruct (update_current_mode a s) as [res s'] eqn:Hr end.
    simpl in *. rewrite Hc. simpl. split_and!; try done.
    unfold update_current_mode in Hr. repeat case_match; simplify_eq; done.
  - done.
  - match goal with |- context [update_current_mode ?a ?s] =>
      destruct (update_current_mode_core a s) as [Hc _];
      destruct (update_current_mode a s) as [res s'] eqn:Hr end.
    simpl in *. rewrite Hc. simpl. split_and!; try done.
    unfold update_current_mode in Hr. repeat case_match; simplify_eq; done.
Qed.

(** X20. When the state carries an [hvac_action] that is a non-empty
    string outside off, idle, heating and cooling (the hub also knows
    "fan" and "drying") and the mode of the state is not in the mode
    table, [update_state] raises a KeyError for that action: the current
    and the target mode characteristic are not written, while everything
    before has been done and all four flags are clear. *)
Theorem update_state_unknown_action new_state action (self : ThermostatObject) :
  Hass.attributes new_state !! ATTR_HVAC_ACTION = Some (Hass.AValue (VStr action)) →
  action ≠ "" →
  dict_get action HC_HASS_TO_HOMEKIT_ACTION = None →
  dict_get (Hass.state new_state) HC_HASS_TO_HOMEKIT = None →
  let r := update_state new_state self in
  let f := core (fields (snd r)) in
  fst r = Raise (KeyError (Some action))
  ∧ char_current_heat_cool (fields (snd r)) = char_current_heat_cool (fields self)
  ∧ char_target_heat_cool (fields (snd r)) = char_target_heat_cool (fields self)
  ∧ _flag_temperature f = false ∧ _flag_coolingthresh f = false
  ∧ _flag_heatingthresh f = false ∧ _flag_heat_cool f = false.
Proof.
  intros Haction Hne Hunknown Hmode.
  destruct (update_before_mode_frame new_state self) as (Hcore & _ & Htarget & Hcurrent).
  destruct (update_temperatures_flags (Hass.attributes new_state) (core (fields self)))
    as (Hft & Hfc & Hfh & _).
  rewrite <- Hcore in Hft, Hfc, Hfh.
  unfold TypeThermostatsState.update_state, update_target_mode, update_current_mode.
  rewrite Hmode, Haction. unfold action_value. rewrite Hunknown.
  cbn [Hass.attribute_truthy truthy].
  assert (negb (action =? "")%string = true) as ->
    by (apply negb_true_iff, String.eqb_neq; done).
  simpl. split_and!; done.
Qed.

(** X21. For a thermostat whose mode table was built from the listed
    modes and whose target mode flag is clear, a state whose mode is
    listed and which carries no [hvac_action] makes [update_state] return
    after writing the protocol value of that mode to the target mode
    characteristic, and that value is one the controller may write back:
    the table maps it to a listed mode with the same protocol value. *)
Theorem update_state_listed_mode new_state hvac_modes v (self : ThermostatObject) :
  hc_homekit_to_hass_of (fields self) = hc_homekit_to_hass hvac_modes →
  Hass.state new_state ∈ default default_hc_modes hvac_modes →
  dict_get (Hass.state new_state) HC_HASS_TO_HOMEKIT = Some v →
  _flag_heat_cool (core (fields self)) = false →
  Hass.attributes new_state !! ATTR_HVAC_ACTION = None →
  let r := update_state new_state self in
  fst r = Return tt
  ∧ char_target_heat_cool (fields (snd r))
    = set_value v (char_target_heat_cool (fields self))
  ∧ ∃ mode, dict_get v (hc_homekit_to_hass hvac_modes) = Some mode
            ∧ mode ∈ default default_hc_modes hvac_modes
            ∧ dict_get mode HC_HASS_TO_HOMEKIT = Some v.
Proof.
  intros Htable Hlisted Hmode Hflag Haction.
  destruct (TypeThermostatsModes.hc_homekit_to_hass_valid_values hvac_modes)
    as [Hsound Hcomplete].
  destruct (Hcomplete _ _ Hlisted Hmode) as [mode Hback].
  destruct (Hsound _ _ Hback) as [Hin Hval].
  assert (negb (Hass.state new_state =? "")%string = true) as Hnonempty.
  { apply negb_true_iff, String.eqb_neq. intros Hempty.
    rewrite Hempty in Hmode. discriminate Hmode. }
  destruct (update_before_mode_frame new_state self) as (Hcore & Htab & Htarget & _).
  destruct (update_temperatures_flags (Hass.attributes new_state) (core (fields self)))
    as (_ & _ & _ & Hfhc & _).
  rewrite <- Hcore, Hflag in Hfhc.
  unfold TypeThermostatsState.update_state, update_target_mode, update_current_mode.
  rewrite Hmode, Hnonempty, Hfhc, Htab, Htable, Hback, Haction. simpl.
  split_and!; [done|by rewrite Htarget|by exists mode].
Qed.

End update_state.

Lemma update_state_unknown_action_witness :
  let new_state :=
    {| Hass.entity_id := "climate.hallway"; Hass.domain := "climate";
       Hass.name := "Hallway"; Hass.state := "dry";
       Hass.attributes := {[ATTR_HVAC_ACTION := Hass.AValue (VStr "drying")]} |} in
  let self :=
    TypeThermostatsState.__init__ "Hallway" "climate.hallway" "°C" 0
      (Some ["heat"; "dry"; "off"]) in
  let r := update_state AdapterExamples.to_states_celsius new_state self in
  let f := core (fields (snd r)) in
  fst r = Raise (KeyError (Some "drying"))
  ∧ char_current_heat_cool (fields (snd r)) = char_current_heat_cool (fields self)
  ∧ char_target_heat_cool (fields (snd r)) = char_target_heat_cool (fields self)
  ∧ _flag_temperature f = false ∧ _flag_coolingthresh f = false
  ∧ _flag_heatingthresh f = false ∧ _flag_heat_cool f = false.
Proof.
  intros new_state self.
  apply (update_state_unknown_action AdapterExamples.to_states_celsius
           new_state "drying" self); first [reflexivity | discriminate].
Defined.

Lemma update_state_listed_mode_witness :
  let new_state :=
    {| Hass.entity_id := "climate.hallway"; Hass.domain := "climate";
       Hass.name := "Hallway"; Hass.state := "heat_cool";
       Hass.attributes := ∅ |} in
  let hvac_modes := Some ["heat"; "auto"; "heat_cool"; "off"] in
  let self :=
    TypeThermostatsState.__init__ "Hallway" "climate.hallway" "°C" 0 hvac_modes in
  let r := update_state AdapterExamples.to_states_celsius new_state self in
  fst r = Return tt
  ∧ char_target_heat_cool (fields (snd r))
    = set_value 3 (char_target_heat_cool (fields self))
  ∧ ∃ mode, dict_get 3 (hc_homekit_to_hass hvac_modes) = Some mode
            ∧ mode ∈ default default_hc_modes hvac_modes
            ∧ dict_get mode HC_HASS_TO_HOMEKIT = Some 3.
Proof.
  intros new_state hvac_modes self.
  apply (update_state_listed_mode AdapterExamples.to_states_celsius
           new_state hvac_modes 3 self); try reflexivity.
  repeat first [apply list_elem_of_here | apply list_elem_of_further].
Defined.

Lemma target_temperature_echo_suppressed_witness :
  let attributes : gmap string Hass.attribute :=
    {[Hass.ATTR_TEMPERATURE := Hass.AValue (VFloat (21 # 1))]} in
  let written :=
    fst (snd (set_target_temperature AdapterExamples.to_states_celsius (22 # 1)
                AdapterExamples.hallway AdapterExamples.quiet_hass)) in
  let echoed :=
    update_temperatures AdapterExamples.to_states_celsius attributes (fields written) in
  let again := update_temperatures AdapterExamples.to_states_celsius attributes echoed in
  _flag_temperature (fields written) = true
  ∧ char_target_temp echoed = char_target_temp (fields AdapterExamples.hallway)
  ∧ _flag_temperature echoed = false
  ∧ char_target_temp again
    = set_value
        (AdapterExamples.to_states_celsius (21 # 1)
           (_unit (fields AdapterExamples.hallway)))
        (char_target_temp (fields AdapterExamples.hallway)).
Proof.
  apply (target_temperature_echo_suppressed AdapterExamples.to_states_celsius
           AdapterExamples.to_states_celsius (22 # 1) (21 # 1)
           {[Hass.ATTR_TEMPERATURE := Hass.AValue (VFloat (21 # 1))]}
           AdapterExamples.hallway AdapterExamples.quiet_hass).
  reflexivity.
Defined.

End TypeThermostatsStateProofs.
